(** * designPatterns: the Memento history manager and the retry strategies

    A shallow embedding of [src/BehavioralPatterns/Memento.ts]:

    - the document editor with undo/redo and named checkpoints
      ([DocumentMemento], [Document], [UndoRedoManager]);
    - the retry strategies ([FailFastStrategy], [FixedRetryStrategy],
      [ExponentialBackoffStrategy]), the retrying [ApiClient] and the
      cancellable [fetchWithRetry].

    Conventions of the embedding.

    - A JavaScript array used as a stack is a [list] in array order: [push]
      appends at the end and [pop] removes the last element.
    - [Map<string, DocumentMemento>] is a [gmap string _]; only [get], [set],
      [delete], [clear] and [size] are modelled (the key order of
      [listCheckpoints] is not).
    - Objects mutated in place ([Document], [UndoRedoManager]) are passed in
      and returned: a method [m(document): boolean] becomes a function to
      [bool * manager * document].
    - [Date.now()] is the argument [now] of every operation that creates a
      memento; theorems hold for every clock reading.
    - The fields [fontSize] and [lineSpacing] are IEEE doubles that are only
      copied, never computed with; they are primitive floats.
    - The delays of the retry strategies are IEEE doubles too, computed with
      the primitive floating-point operations. *)

From Stdlib Require Import ZArith Lia Floats QArith Qpower.
From stdpp Require Import gmap strings list.

Open Scope Z_scope.

(** ** Arrays used as stacks *)

Section Array.
Context {A : Type}.

(** [Array.prototype.push]: append one element. *)
Definition push (l : list A) (x : A) : list A := l ++ [x].

(** [Array.prototype.pop]: the last element and the shortened array, or
    [None] ([undefined]) on the empty array. *)
Definition pop (l : list A) : option (A * list A) :=
  match last l with
  | Some x => Some (x, removelast l)
  | None => None
  end.
End Array.

(** ** 1. Memento: the snapshot container *)

Module DocumentState.
Record t := mk {
  content : string;
  fontSize : float;
  lineSpacing : float;
  fontFamily : string
}.

(** The object spread [{ ...state }]: a fresh object with the same
    fields. *)
Definition spread (s : t) : t :=
  {| content := content s;
     fontSize := fontSize s;
     lineSpacing := lineSpacing s;
     fontFamily := fontFamily s |}.
End DocumentState.

Module DocumentMemento.
Record t := mk {
  timestamp : Z;
  state : DocumentState.t
}.

(** [constructor(state)], with [now] the value of [Date.now()]. *)
Definition new (now : Z) (st : DocumentState.t) : t :=
  {| state := DocumentState.spread st; timestamp := now |}.

Definition getState (self : t) : DocumentState.t :=
  DocumentState.spread (state self).

Definition getTimestamp (self : t) : Z := timestamp self.
End DocumentMemento.

(** ** 2. Originator: the object whose state is captured *)

Module Document.
Record t := mk {
  content : string;
  fontSize : float;
  lineSpacing : float;
  fontFamily : string
}.

(** [new Document()]: the field initialisers. *)
Definition new : t :=
  {| content := ""; fontSize := 12%float; lineSpacing := 1.5%float;
     fontFamily := "Arial" |}.

Definition setText (c : string) (self : t) : t :=
  {| content := c; fontSize := fontSize self;
     lineSpacing := lineSpacing self; fontFamily := fontFamily self |}.

Definition getText (self : t) : string := content self.

Definition setFontSize (size : float) (self : t) : t :=
  {| content := content self; fontSize := size;
     lineSpacing := lineSpacing self; fontFamily := fontFamily self |}.

Definition getFontSize (self : t) : float := fontSize self.

Definition setLineSpacing (spacing : float) (self : t) : t :=
  {| content := content self; fontSize := fontSize self;
     lineSpacing := spacing; fontFamily := fontFamily self |}.

Definition getLineSpacing (self : t) : float := lineSpacing self.

Definition setFontFamily (family : string) (self : t) : t :=
  {| content := content self; fontSize := fontSize self;
     lineSpacing := lineSpacing self; fontFamily := family |}.

Definition getFontFamily (self : t) : string := fontFamily self.

Definition createMemento (now : Z) (self : t) : DocumentMemento.t :=
  DocumentMemento.new now
    (DocumentState.mk (content self) (fontSize self) (lineSpacing self)
       (fontFamily self)).

(** Every field is overwritten from the memento's state. *)
Definition restoreFromMemento (memento : DocumentMemento.t) (self : t) : t :=
  let st := DocumentMemento.getState memento in
  {| content := DocumentState.content st;
     fontSize := DocumentState.fontSize st;
     lineSpacing := DocumentState.lineSpacing st;
     fontFamily := DocumentState.fontFamily st |}.

Definition getState (self : t) : DocumentState.t :=
  DocumentState.mk (content self) (fontSize self) (lineSpacing self)
    (fontFamily self).
End Document.

(** ** 3. Caretaker: manages mementos and undo/redo *)

Module UndoRedoManager.
Record t := mk {
  undoStack : list DocumentMemento.t;
  redoStack : list DocumentMemento.t;
  checkpoints : gmap string DocumentMemento.t
}.

Definition new : t :=
  {| undoStack := []; redoStack := []; checkpoints := ∅ |}.

(** Clears the redo stack, then pushes a snapshot of the document. *)
Definition saveState (now : Z) (document : Document.t) (self : t) : t :=
  {| redoStack := [];
     undoStack := push (undoStack self) (Document.createMemento now document);
     checkpoints := checkpoints self |}.

(** The branch [None] of the [pop] is not reachable: the stack was just
    seen to be non-empty (lemma [pop_None_length]); it returns the
    arguments unchanged. *)
Definition undo (now : Z) (document : Document.t) (self : t)
  : bool * t * Document.t :=
  if (length (undoStack self) =? 0)%nat then (false, self, document)
  else
    let redoStack' := push (redoStack self) (Document.createMemento now document) in
    match pop (undoStack self) with
    | Some (memento, undoStack') =>
        (true,
         {| undoStack := undoStack'; redoStack := redoStack';
            checkpoints := checkpoints self |},
         Document.restoreFromMemento memento document)
    | None => (false, self, document)
    end.

Definition redo (now : Z) (document : Document.t) (self : t)
  : bool * t * Document.t :=
  if (length (redoStack self) =? 0)%nat then (false, self, document)
  else
    let undoStack' := push (undoStack self) (Document.createMemento now document) in
    match pop (redoStack self) with
    | Some (memento, redoStack') =>
        (true,
         {| undoStack := undoStack'; redoStack := redoStack';
            checkpoints := checkpoints self |},
         Document.restoreFromMemento memento document)
    | None => (false, self, document)
    end.

Definition createCheckpoint (name : string) (now : Z) (document : Document.t)
    (self : t) : t :=
  {| undoStack := undoStack self; redoStack := redoStack self;
     checkpoints := <[name := Document.createMemento now document]> (checkpoints self) |}.

(** [if (!memento)]: a memento is an object, hence truthy; the test fails
    exactly when [get] found nothing. *)
Definition restoreCheckpoint (name : string) (now : Z) (document : Document.t)
    (self : t) : bool * t * Document.t :=
  match checkpoints self !! name with
  | None => (false, self, document)
  | Some memento =>
      (true,
       {| undoStack := push (undoStack self) (Document.createMemento now document);
          redoStack := [];
          checkpoints := checkpoints self |},
       Document.restoreFromMemento memento document)
  end.

(** [Map.prototype.delete] returns whether the key was present. *)
Definition deleteCheckpoint (name : string) (self : t) : bool * t :=
  (bool_decide (is_Some (checkpoints self !! name)),
   {| undoStack := undoStack self; redoStack := redoStack self;
      checkpoints := delete name (checkpoints self) |}).

Definition clearHistory (self : t) : t :=
  {| undoStack := []; redoStack := []; checkpoints := ∅ |}.

Record Stats := mkStats {
  undoStackSize : nat;
  redoStackSize : nat;
  checkpointCount : nat
}.

Definition getStats (self : t) : Stats :=
  {| undoStackSize := length (undoStack self);
     redoStackSize := length (redoStack self);
     checkpointCount := size (checkpoints self) |}.
End UndoRedoManager.

(** ** 4. Usage: edit scripts

    The scenarios of [demonstrateMemento] are sequences of [setText] /
    [saveState] pairs followed by [undo] and [redo] calls.  A world is the
    pair of the manager and the document it is used with. *)

Definition World : Type := UndoRedoManager.t * Document.t.

(** [document.setText(text); undoManager.saveState(document)], the memento
    being created at time [now]. *)
Definition editAndSave (w : World) (edit : string * Z) : World :=
  let document := Document.setText edit.1 w.2 in
  (UndoRedoManager.saveState edit.2 document w.1, document).

(** The snapshot that [editAndSave] pushes in a script started with the
    document [d0]: only the text differs from [d0]. *)
Definition savedMemento (d0 : Document.t) (edit : string * Z)
  : DocumentMemento.t :=
  Document.createMemento edit.2 (Document.setText edit.1 d0).

Definition saveAll (edits : list (string * Z)) (w : World) : World :=
  foldl editAndSave w edits.

(** [undoManager.undo(document)], result ignored as in the demonstration. *)
Definition undoOnce (w : World) (now : Z) : World :=
  let '(_, manager, document) := UndoRedoManager.undo now w.2 w.1 in
  (manager, document).

Definition redoOnce (w : World) (now : Z) : World :=
  let '(_, manager, document) := UndoRedoManager.redo now w.2 w.1 in
  (manager, document).

Definition undoAll (nows : list Z) (w : World) : World :=
  foldl undoOnce w nows.

(** Scenario 2 of the demonstration, up to the jump: a checkpoint "v1" and
    two saved edits. *)
Definition checkpointedDocument : Document.t :=
  Document.setFontSize 12 (Document.setText "Version 1" Document.new).

Definition checkpointedWorld : World :=
  saveAll [("Version 2 - Major Changes", 11); ("Version 3 - More Changes", 12)]
    (UndoRedoManager.createCheckpoint "v1" 10 checkpointedDocument
       UndoRedoManager.new,
     checkpointedDocument).

(** Three saved edits, two undos and a fresh text: both stacks hold
    entries. *)
Definition editedWorld : World :=
  undoAll [24; 25]
    (saveAll [("State A", 21); ("State B", 22); ("State C", 23)]
       (UndoRedoManager.new, Document.new)).

Definition editedManager : UndoRedoManager.t := editedWorld.1.
Definition editedDocument : Document.t :=
  Document.setText "State B (Modified)" editedWorld.2.

(** ** 5. Retry strategies

    Numbers: [attempt] is the wrappers' counter (it starts at 0 and is only
    incremented), a [nat]; [maxRetries] is an integer number of retries, a
    [Z]; the delays in milliseconds are doubles, computed as the code
    computes them. *)

(** [Math.pow(2, attempt)] for a counter: the double nearest to
    [2^attempt], which is [2^attempt] itself up to [attempt = 1023] and
    [Infinity] from 1024 on (lemma [pow2_spec]). *)
Definition pow2 (attempt : nat) : float := Z.ldexp 1 (Z.of_nat attempt).





(** Values that a promise can reject with ([error: unknown]). *)
Inductive unknown :=
| Error (message : string)
| TypeError (message : string)
| DOMException (message name : string)
| Thrown (value : string).

(** [error.name === 'AbortError'], how a caller recognises a cancellation. *)
Definition isAbortError (error : unknown) : bool :=
  match error with
  | DOMException _ name => bool_decide (name = "AbortError")
  | _ => false
  end.

(** [interface RetryStrategy] *)
Class RetryStrategy (S : Type) := {
  shouldRetry : S -> unknown -> nat -> bool;
  getDelay : S -> nat -> float
}.

Module FailFastStrategy.
Inductive t := new.

Definition shouldRetry (self : t) : bool := false.

Definition getDelay (self : t) : float := 0.
End FailFastStrategy.

#[export] Instance FailFastStrategy_RetryStrategy
  : RetryStrategy FailFastStrategy.t :=
  {| shouldRetry self _ _ := FailFastStrategy.shouldRetry self;
     getDelay self _ := FailFastStrategy.getDelay self |}.

Module FixedRetryStrategy.
Record t := new {
  maxRetries : Z;
  delayMs : float
}.

(** [new FixedRetryStrategy()]: the default parameters. *)
Definition default : t := new 2 500.

Definition shouldRetry (self : t) (_ : unknown) (attempt : nat) : bool :=
  Z.of_nat attempt <? maxRetries self.

Definition getDelay (self : t) : float := delayMs self.
End FixedRetryStrategy.

#[export] Instance FixedRetryStrategy_RetryStrategy
  : RetryStrategy FixedRetryStrategy.t :=
  {| shouldRetry := FixedRetryStrategy.shouldRetry;
     getDelay self _ := FixedRetryStrategy.getDelay self |}.

Module ExponentialBackoffStrategy.
Record t := new {
  maxRetries : Z;
  baseDelay : float
}.

(** [new ExponentialBackoffStrategy()]: the default parameters. *)
Definition default : t := new 5 300.

Definition shouldRetry (self : t) (_ : unknown) (attempt : nat) : bool :=
  Z.of_nat attempt <? maxRetries self.

(** [this.baseDelay * Math.pow(2, attempt)] *)
Definition getDelay (self : t) (attempt : nat) : float :=
  (baseDelay self * pow2 attempt)%float.
End ExponentialBackoffStrategy.

#[export] Instance ExponentialBackoffStrategy_RetryStrategy
  : RetryStrategy ExponentialBackoffStrategy.t :=
  {| shouldRetry := ExponentialBackoffStrategy.shouldRetry;
     getDelay := ExponentialBackoffStrategy.getDelay |}.

(** ** 6. The retrying wrappers

    An [async] function is run against an environment that says how each
    awaited promise settles.  The run is recorded as a list of events; a
    result [None] means that the loop is still running when the fuel is
    used up. *)

(** How a promise settles. *)
Inductive Settled (T : Type) :=
| Fulfilled (value : T)
| Rejected (error : unknown).
Arguments Fulfilled {T} value.
Arguments Rejected {T} error.

Inductive Event :=
| Attempt (attempt : nat)   (* the operation is started: [fn()], [fetch(url, ...)] *)
| Wait (delay : float)      (* [setTimeout(..., delay)] is armed and awaited *)
| Abort.                    (* the signal's [abort] event fires *)

(** The attempt counters at which the operation was started. *)
Definition attempts (trace : list Event) : list nat :=
  omap (fun e => match e with Attempt n => Some n | _ => None end) trace.



Module ApiClient.
Record t (S : Type) := new { retryStrategy : S }.
Arguments new {S} retryStrategy.
Arguments retryStrategy {S} _.

Section Request.
Context {S : Type} `{RetryStrategy S} {T : Type}.
Variable self : t S.
(** [fn k] is how the promise of the invocation of [fn] made with
    [attempt = k] settles; [attempt] counts the invocations made so
    far. *)
Variable fn : nat -> Settled T.

(** One turn of [while (true)] per unit of fuel. *)
Fixpoint requestLoop (fuel attempt : nat)
  : list Event * option (Settled T) :=
  match fuel with
  | O => ([], None)
  | Datatypes.S fuel' =>
      match fn attempt with
      | Fulfilled value => ([Attempt attempt], Some (Fulfilled value))
      | Rejected error =>
          if negb (shouldRetry (retryStrategy self) error attempt)
          then ([Attempt attempt], Some (Rejected error))
          else
            let delay := getDelay (retryStrategy self) attempt in
            let '(trace, result) := requestLoop fuel' (Datatypes.S attempt) in
            (Attempt attempt :: Wait delay :: trace, result)
      end
  end.

(** [let attempt = 0; while (true) ...] *)
Definition request (fuel : nat) : list Event * option (Settled T) :=
  requestLoop fuel 0%nat.
End Request.
End ApiClient.

(** [paymentsClient], [analyticsClient], [authClient] *)
Definition paymentsClient : ApiClient.t ExponentialBackoffStrategy.t :=
  ApiClient.new ExponentialBackoffStrategy.default.
Definition analyticsClient : ApiClient.t FixedRetryStrategy.t :=
  ApiClient.new (FixedRetryStrategy.new 1 200).
Definition authClient : ApiClient.t FailFastStrategy.t :=
  ApiClient.new FailFastStrategy.new.

(** *** [fetchWithRetry]: retry with cancellation

    The platform ([fetch], [Response.json], the timer and the
    [AbortSignal]) is the environment.  JavaScript runs [execute] without
    interruption between two [await]s, so the signal can only become
    aborted while [execute] is suspended on a promise, and the platform
    settles that promise accordingly:

    - a [fetch] or a body read that is pending when the signal aborts
      rejects with the signal's abort reason (after [abort()] without
      argument, the only call in this file, a [DOMException] named
      [AbortError]);
    - the promise of the delay is rejected by the [abort] listener that
      [execute] registers, otherwise resolved by the timer. *)

Module Platform.
Section Outcomes.
Context {Json : Type}.

(** How [response.json()] settles. *)
Inductive BodyOutcome :=
| BodyJson (value : Json)
| BodyError (error : unknown)
| BodyAborted (reason : unknown).

(** How [fetch(url, { signal })] settles. *)
Inductive FetchOutcome :=
| Response (ok : bool) (body : BodyOutcome)
| NetworkError (error : unknown)
| FetchAborted (reason : unknown).
End Outcomes.
Arguments BodyOutcome Json : clear implicits.
Arguments FetchOutcome Json : clear implicits.

(** How the delay promise settles. *)
Inductive WaitOutcome :=
| TimerFired
| AbortFired.

(** The environment of one run: what the network answers to the fetch of
    each attempt and what ends each delay. *)
Record t (Json : Type) := mk {
  fetch : string -> nat -> FetchOutcome Json;
  timer : nat -> float -> WaitOutcome
}.
Arguments fetch {Json} _ _ _.
Arguments timer {Json} _ _ _.
End Platform.

(** [new DOMException('Aborted', 'AbortError')], the wrapper's own
    cancellation error. *)
Definition wrapperAbortError : unknown := DOMException "Aborted" "AbortError".

Section FetchWithRetry.
Context {S : Type} `{RetryStrategy S} {Json : Type}.
Variable url : string.
Variable strategy : S.
Variable platform : Platform.t Json.

(** The [try] block: how it completes, and whether the signal became
    aborted while it was suspended.  The body is only read from a response
    that is ok. *)
Definition tryFetch (attempt : nat) : Settled Json * bool :=
  match Platform.fetch platform url attempt with
  | Platform.Response ok body =>
      if negb ok
      then (Rejected (Error "Network response was not ok"), false)
      else
        match body with
        | Platform.BodyJson value => (Fulfilled value, false)
        | Platform.BodyError error => (Rejected error, false)
        | Platform.BodyAborted reason => (Rejected reason, true)
        end
  | Platform.NetworkError error => (Rejected error, false)
  | Platform.FetchAborted reason => (Rejected reason, true)
  end.






(** One turn of [while (true)] per unit of fuel; [aborted] is
    [signal.aborted] at the top of the loop. *)
Fixpoint executeLoop (fuel attempt : nat) (aborted : bool)
  : list Event * option (Settled Json) :=
  match fuel with
  | O => ([], None)
  | Datatypes.S fuel' =>
      if aborted
      then ([], Some (Rejected wrapperAbortError))
      else
        let '(completion, aborted') := tryFetch attempt in
        let started := Attempt attempt :: (if aborted' then [Abort] else []) in
        match completion with
        | Fulfilled value => (started, Some (Fulfilled value))
        | Rejected error =>
            if aborted' then (started, Some (Rejected error))
            else if negb (shouldRetry strategy error attempt)
            then (started, Some (Rejected error))
            else
              let delay := getDelay strategy attempt in
              match Platform.timer platform attempt delay with
              | Platform.AbortFired =>
                  (started ++ [Wait delay; Abort],
                   Some (Rejected wrapperAbortError))
              | Platform.TimerFired =>
                  let '(trace, result) :=
                    executeLoop fuel' (Datatypes.S attempt) aborted' in
                  (started ++ Wait delay :: trace, result)
              end
        end
  end.

(** [fetchWithRetry(url, strategy, signal)()], with [aborted] the state of
    the signal when [execute] is called. *)
Definition fetchWithRetry (aborted : bool) (fuel : nat)
  : list Event * option (Settled Json) :=
  executeLoop fuel 0%nat aborted.
End FetchWithRetry.

(** ** 7. Client programs of the history manager

    A client of the manager is a sequence of calls on one document and one
    manager; the results of the calls are functions of the state, so a
    client that branches on them still performs one such sequence. *)

Inductive Action :=
| SetText (text : string)
| SetFontSize (size : float)
| SetLineSpacing (spacing : float)
| SetFontFamily (family : string)
| SaveState (now : Z)
| UndoCall (now : Z)
| RedoCall (now : Z)
| CreateCheckpoint (name : string) (now : Z)
| RestoreCheckpoint (name : string) (now : Z)
| DeleteCheckpoint (name : string)
| ClearHistory.

Definition perform (w : World) (action : Action) : World :=
  match action with
  | SetText text => (w.1, Document.setText text w.2)
  | SetFontSize size => (w.1, Document.setFontSize size w.2)
  | SetLineSpacing spacing => (w.1, Document.setLineSpacing spacing w.2)
  | SetFontFamily family => (w.1, Document.setFontFamily family w.2)
  | SaveState now => (UndoRedoManager.saveState now w.2 w.1, w.2)
  | UndoCall now => undoOnce w now
  | RedoCall now => redoOnce w now
  | CreateCheckpoint name now =>
      (UndoRedoManager.createCheckpoint name now w.2 w.1, w.2)
  | RestoreCheckpoint name now =>
      let '(_, manager, document) :=
        UndoRedoManager.restoreCheckpoint name now w.2 w.1 in
      (manager, document)
  | DeleteCheckpoint name => ((UndoRedoManager.deleteCheckpoint name w.1).2, w.2)
  | ClearHistory => (UndoRedoManager.clearHistory w.1, w.2)
  end.

Definition performAll (script : list Action) (w : World) : World :=
  foldl perform w script.

Definition redoAll (nows : list Z) (w : World) : World :=
  foldl redoOnce w nows.

(** The action leaves the checkpoint stored under [name] alone: it neither
    creates nor deletes [name] and does not clear the history. *)
Definition keepsCheckpoint (name : string) (action : Action) : bool :=
  match action with
  | CreateCheckpoint name' _ | DeleteCheckpoint name' =>
      bool_decide (name' <> name)
  | ClearHistory => false
  | _ => true
  end.

(** The states that the document goes through while the script runs, the
    first one included. *)
Fixpoint visited (script : list Action) (w : World) : list DocumentState.t :=
  Document.getState w.2 ::
  match script with
  | [] => []
  | action :: rest => visited rest (perform w action)
  end.

(** The manager holds the memento: on a stack or under a checkpoint name. *)
Definition holds (manager : UndoRedoManager.t) (memento : DocumentMemento.t)
  : Prop :=
  memento ∈ UndoRedoManager.undoStack manager \/
  memento ∈ UndoRedoManager.redoStack manager \/
  exists name, UndoRedoManager.checkpoints manager !! name = Some memento.

(** The delays that the timers were armed with, in order. *)
Definition waits (trace : list Event) : list float :=
  omap (fun e => match e with Wait delay => Some delay | _ => None end) trace.

(** The platform of a run that nobody cancels: no fetch and no body read is
    aborted and every delay ends with its timer. *)
Definition neverAborts {Json : Type} (url : string) (platform : Platform.t Json)
  : Prop :=
  (forall attempt, (tryFetch url platform attempt).2 = false) /\
  (forall attempt delay,
     Platform.timer platform attempt delay = Platform.TimerFired).

(** ** 8. The [useEffect] emulation

    [V] is the type of JavaScript values with [Object.is] as its equality
    (same value for primitives, same reference for objects).  The state is
    the global [prevDeps.current]; [None] is [undefined].  A call reports
    whether it invoked the callback. *)

Section UseEffect.
Context {V : Type} `{EqDecision V}.

Definition Object_is (a b : V) : bool := bool_decide (a = b).

(** [deps.some((dep, i) => !Object.is(dep, prev[i]))]; it is only reached
    with [prev.length === deps.length], so [prev[i]] is never out of
    range (modelled as a difference). *)
Definition someChanged (deps prev : list V) : bool :=
  existsb id
    (imap (fun i dep =>
             negb (match prev !! i with
                   | Some p => Object_is dep p
                   | None => false
                   end)) deps).

Definition useEffect (deps : option (list V)) (prevDeps : option (list V))
  : bool * option (list V) :=
  match deps with
  | None => (true, prevDeps)
  | Some deps =>
      let hasChanged :=
        match prevDeps with
        | None => true
        | Some prev =>
            if negb (length prev =? length deps)%nat then true
            else someChanged deps prev
        end in
      (hasChanged, Some deps)
  end.

(** A sequence of [useEffect] calls on the shared [prevDeps]: which of them
    invoked their callback, and the final [prevDeps.current]. *)
Fixpoint useEffects (calls : list (option (list V))) (prevDeps : option (list V))
  : list bool * option (list V) :=
  match calls with
  | [] => ([], prevDeps)
  | deps :: rest =>
      let '(ran, prevDeps') := useEffect deps prevDeps in
      let '(rans, final) := useEffects rest prevDeps' in
      (ran :: rans, final)
  end.
End UseEffect.

(** * Properties *)

(** ** Stacks *)

Section ArrayFacts.
Context {A : Type}.
Implicit Types (l : list A) (x : A).

Lemma pop_push l x : pop (push l x) = Some (x, l).
Proof.
  unfold pop, push. by rewrite last_snoc, removelast_last.
Qed.

Lemma pop_nil : pop (@nil A) = None.
Proof. reflexivity. Qed.

(** [pop] returns [undefined] exactly on the array of length 0: the
    unreachable branches of [undo] and [redo]. *)
Lemma pop_None_length l : pop l = None <-> length l = 0%nat.
Proof.
  unfold pop. destruct (last l) eqn:E.
  - split; [done|]. intros Hl. apply length_zero_iff_nil in Hl. by subst.
  - apply last_None in E. by subst.
Qed.

(** A successful [pop] undoes a [push]. *)
Lemma pop_Some l x l' : pop l = Some (x, l') -> l = push l' x.
Proof.
  unfold pop, push. destruct (last l) as [y|] eqn:E; [|done].
  intros [= <- <-]. destruct (decide (l = [])) as [->|Hne]; [done|].
  rewrite (app_removelast_last y Hne) at 1.
  rewrite (app_removelast_last y Hne), last_snoc in E. congruence.
Qed.

Lemma pop_nonempty l :
  (length l =? 0)%nat = false -> exists x l', pop l = Some (x, l').
Proof.
  intros Hl. destruct (pop l) as [[x l']|] eqn:E; [eauto|].
  apply pop_None_length in E. rewrite E in Hl. done.
Qed.

Lemma length_push l x : length (push l x) = Datatypes.S (length l).
Proof. unfold push. rewrite length_app. simpl. lia. Qed.
End ArrayFacts.

(** ** Snapshots *)

Lemma spread_id s : DocumentState.spread s = s.
Proof. by destruct s. Qed.

Lemma getState_new now st :
  DocumentMemento.getState (DocumentMemento.new now st) = st.
Proof.
  unfold DocumentMemento.getState, DocumentMemento.new. simpl.
  by rewrite !spread_id.
Qed.

(** A snapshot holds the observable state of the document it was taken
    from. *)
Lemma getState_createMemento now d :
  DocumentMemento.getState (Document.createMemento now d) = Document.getState d.
Proof. unfold Document.createMemento. by rewrite getState_new. Qed.

(** After a restore the document's observable state is the snapshot's. *)
Lemma getState_restoreFromMemento memento d :
  Document.getState (Document.restoreFromMemento memento d)
  = DocumentMemento.getState memento.
Proof.
  destruct memento as [ts [c size spacing family]]. reflexivity.
Qed.

(** Restoring a snapshot of [d] gives [d] back, whatever the document has
    become in between. *)
Lemma restore_createMemento now d d' :
  Document.restoreFromMemento (Document.createMemento now d) d' = d.
Proof. by destruct d. Qed.

Lemma getText_restoreFromMemento memento d :
  Document.getText (Document.restoreFromMemento memento d)
  = DocumentState.content (DocumentMemento.state memento).
Proof. reflexivity. Qed.

(** ** [undo] and [redo], case by case *)

Section Caretaker.
Import UndoRedoManager.
Implicit Types (m : UndoRedoManager.t) (d : Document.t) (now : Z).

Lemma undo_nil now d m : undoStack m = [] -> undo now d m = (false, m, d).
Proof. unfold undo. by intros ->. Qed.

Lemma redo_nil now d m : redoStack m = [] -> redo now d m = (false, m, d).
Proof. unfold redo. by intros ->. Qed.

Lemma undo_push now d m u memento :
  undoStack m = push u memento ->
  undo now d m
  = (true,
     mk u (push (redoStack m) (Document.createMemento now d)) (checkpoints m),
     Document.restoreFromMemento memento d).
Proof.
  unfold undo. intros ->. rewrite length_push, pop_push. reflexivity.
Qed.

Lemma redo_push now d m r memento :
  redoStack m = push r memento ->
  redo now d m
  = (true,
     mk (push (undoStack m) (Document.createMemento now d)) r (checkpoints m),
     Document.restoreFromMemento memento d).
Proof.
  unfold redo. intros ->. rewrite length_push, pop_push. reflexivity.
Qed.

(** What a successful [undo] did. *)
Lemma undo_true now d m m' d' :
  undo now d m = (true, m', d') ->
  exists memento,
    undoStack m = push (undoStack m') memento /\
    redoStack m' = push (redoStack m) (Document.createMemento now d) /\
    checkpoints m' = checkpoints m /\
    d' = Document.restoreFromMemento memento d.
Proof.
  unfold undo. destruct (length (undoStack m) =? 0)%nat; [done|].
  destruct (pop (undoStack m)) as [[memento u]|] eqn:E; [|done].
  intros [= <- <-]. exists memento. simpl. by apply pop_Some in E.
Qed.

Lemma redo_true now d m m' d' :
  redo now d m = (true, m', d') ->
  exists memento,
    redoStack m = push (redoStack m') memento /\
    undoStack m' = push (undoStack m) (Document.createMemento now d) /\
    checkpoints m' = checkpoints m /\
    d' = Document.restoreFromMemento memento d.
Proof.
  unfold redo. destruct (length (redoStack m) =? 0)%nat; [done|].
  destruct (pop (redoStack m)) as [[memento r]|] eqn:E; [|done].
  intros [= <- <-]. exists memento. simpl. by apply pop_Some in E.
Qed.

(** [undo] fails only on the empty undo stack. *)
Lemma undo_false now d m m' d' :
  undo now d m = (false, m', d') -> undoStack m = [] /\ m' = m /\ d' = d.
Proof.
  unfold undo. destruct (length (undoStack m) =? 0)%nat eqn:El.
  - intros [= <- <-]. apply Nat.eqb_eq, length_zero_iff_nil in El. done.
  - destruct (pop_nonempty _ El) as (x & l' & ->). done.
Qed.

Lemma restoreCheckpoint_true name now d m m' d' :
  restoreCheckpoint name now d m = (true, m', d') ->
  exists memento,
    checkpoints m !! name = Some memento /\
    undoStack m' = push (undoStack m) (Document.createMemento now d) /\
    redoStack m' = [] /\
    checkpoints m' = checkpoints m /\
    d' = Document.restoreFromMemento memento d.
Proof.
  unfold restoreCheckpoint.
  destruct (checkpoints m !! name) as [memento|]; [|done].
  intros [= <- <-]. by exists memento.
Qed.
End Caretaker.

(** ** Edit scripts *)

Section Scripts.
Import UndoRedoManager.

Lemma setText_setText c c' d :
  Document.setText c (Document.setText c' d) = Document.setText c d.
Proof. reflexivity. Qed.

Lemma saveAll_snoc edits edit w :
  saveAll (edits ++ [edit]) w = editAndSave (saveAll edits w) edit.
Proof. unfold saveAll. by rewrite foldl_snoc. Qed.

(** After a script of saves the undo stack has grown by one snapshot per
    save, in order, the redo stack is empty and the document shows the
    last text. *)
Lemma saveAll_spec edits edit m0 d0 :
  let w := saveAll (edits ++ [edit]) (m0, d0) in
  undoStack w.1 = undoStack m0 ++ (savedMemento d0 <$> (edits ++ [edit])) /\
  redoStack w.1 = [] /\
  checkpoints w.1 = checkpoints m0 /\
  w.2 = Document.setText edit.1 d0.
Proof.
  revert edit. induction edits as [|e edits IH] using rev_ind; intros edit.
  - simpl. unfold push. done.
  - rewrite saveAll_snoc. destruct (IH e) as (Hu & Hr & Hc & Hd).
    unfold editAndSave at 1. simpl. rewrite Hu, Hc, Hd.
    rewrite setText_setText. unfold push.
    rewrite (fmap_app _ (edits ++ [e]) [edit]), app_assoc. done.
Qed.

Lemma undoOnce_push now d m u memento :
  undoStack m = push u memento ->
  undoOnce (m, d) now
  = (mk u (push (redoStack m) (Document.createMemento now d)) (checkpoints m),
     Document.restoreFromMemento memento d).
Proof. intros Hu. unfold undoOnce. simpl. by rewrite (undo_push _ _ _ _ _ Hu). Qed.

Lemma undoAll_cons now nows w :
  undoAll (now :: nows) w = undoAll nows (undoOnce w now).
Proof. reflexivity. Qed.

(** [n] undos on a stack that holds at least [n] entries above [base]:
    they pop the last [n] entries, and the document becomes the entry
    popped last. *)
Lemma undoAll_spec nows : forall base entries m d,
  undoStack m = base ++ entries ->
  (0 < length nows <= length entries)%nat ->
  let w := undoAll nows (m, d) in
  undoStack w.1 = base ++ take (length entries - length nows) entries /\
  checkpoints w.1 = checkpoints m /\
  DocumentMemento.getState <$> entries !! (length entries - length nows)%nat
  = Some (Document.getState w.2).
Proof.
  induction nows as [|now nows IH]; intros base entries m d Hu Hlen;
    [simpl in Hlen; lia|].
  destruct entries as [|e entries _] using rev_ind; [simpl in Hlen; lia|].
  rewrite length_app in Hlen |- *. simpl length in Hlen |- *.
  rewrite app_assoc in Hu.
  rewrite undoAll_cons, (undoOnce_push now d m _ _ Hu).
  destruct nows as [|now' nows].
  - replace (length entries + 1 - Datatypes.S (length (@nil Z)))%nat
      with (length entries) by (simpl; lia).
    rewrite take_app_length, list_lookup_middle by done. simpl.
    by rewrite getState_restoreFromMemento.
  - set (m1 := mk _ _ _). set (d1 := Document.restoreFromMemento _ _).
    destruct (IH base entries m1 d1 eq_refl) as (Hu' & Hc' & Hd');
      [simpl in *; lia|].
    replace (length entries + 1 - Datatypes.S (length (now' :: nows)))%nat
      with (length entries - length (now' :: nows))%nat by lia.
    split_and!; [| done |].
    + rewrite Hu'. f_equal. rewrite take_app_le; [done|]. lia.
    + rewrite <- Hd'. rewrite lookup_app_l; [done|]. simpl in *; lia.
Qed.
End Scripts.

(** X16.  After [k] saves and [n] undos, [1 <= n <= k], the document shows
    the text of save number [k - n + 1] (counting from 1), which is entry
    [k - n] of the script counted from 0: the first undo restores the
    snapshot taken by the last save, that is the text the document already
    shows. *)
Lemma undoAll_saveAll_text edits nows m0 d0 :
  (0 < length nows <= length edits)%nat ->
  fst <$> edits !! (length edits - length nows)%nat
  = Some (Document.getText (undoAll nows (saveAll edits (m0, d0))).2).
Proof.
  intros Hlen.
  destruct edits as [|edit edits _] using rev_ind; [simpl in Hlen; lia|].
  destruct (saveAll_spec edits edit m0 d0) as (Hu & _ & _ & _).
  destruct (saveAll (edits ++ [edit]) (m0, d0)) as [m d]. simpl in Hu.
  destruct (undoAll_spec nows _ _ m d Hu) as (_ & _ & Hd).
  { by rewrite length_fmap. }
  rewrite length_fmap, list_lookup_fmap in Hd.
  destruct ((edits ++ [edit]) !! _) as [[text now]|]; [|done].
  simpl. injection Hd as Htext _ _ _. unfold Document.getText.
  by rewrite Htext.
Qed.

(** * The claims *)

Section HistoryClaims.
Import UndoRedoManager.
Implicit Types (m : UndoRedoManager.t) (d : Document.t) (now : Z).

(** C1.  The code at the example of the claim: after save "A", save "B",
    save "C" the first undo leaves the document at "C" (the claim and the
    comments of [demonstrateMemento] expect "B"), the second undo gives
    "B" (expected "A") and the redo gives "C" (expected "B").  This holds
    for every reading of the clock. *)
Theorem undo_after_saves_restores_last_save (t1 t2 t3 t4 t5 t6 : Z) :
  let w0 := saveAll [("A", t1); ("B", t2); ("C", t3)]
              (UndoRedoManager.new, Document.new) in
  let w1 := undoOnce w0 t4 in
  let w2 := undoOnce w1 t5 in
  let w3 := redoOnce w2 t6 in
  Document.getText w0.2 = "C" /\
  Document.getText w1.2 = "C" /\
  Document.getText w2.2 = "B" /\
  Document.getText w3.2 = "C".
Proof. done. Qed.

(** C4.  [saveState] and a successful [restoreCheckpoint] leave the redo
    stack empty, and a [redo] issued next, on any document, returns
    [false] and changes nothing. *)
Theorem redo_cleared_by_save_and_restore now d m :
  (redoStack (saveState now d m) = [] /\
   forall now' d',
     redo now' d' (saveState now d m) = (false, saveState now d m, d')) /\
  (forall name m1 d1,
     restoreCheckpoint name now d m = (true, m1, d1) ->
     redoStack m1 = [] /\
     forall now' d', redo now' d' m1 = (false, m1, d')).
Proof.
  split.
  - split; [done|]. intros. by apply redo_nil.
  - intros name m1 d1 Hr.
    destruct (restoreCheckpoint_true _ _ _ _ _ _ Hr) as (_ & _ & _ & Hredo & _).
    split; [done|]. intros. by apply redo_nil.
Qed.

Lemma redo_cleared_by_save_and_restore_witness :
  let m := checkpointedWorld.1 in
  let d := checkpointedWorld.2 in
  let restored := restoreCheckpoint "v1" 13 d m in
  restored.1.1 = true /\
  redoStack (saveState 13 d m) = [] /\
  (redo 14 d (saveState 13 d m)).1.1 = false /\
  redoStack restored.1.2 = [] /\
  (redo 14 restored.2 restored.1.2).1.1 = false.
Proof.
  intros m d restored.
  destruct (redo_cleared_by_save_and_restore 13 d m) as [[Hs Hsr] Hr].
  destruct (Hr "v1" restored.1.2 restored.2 eq_refl) as [Hr1 Hr2].
  split; [reflexivity|]. split; [exact Hs|].
  rewrite Hsr, Hr2. split; [reflexivity|]. split; [exact Hr1|reflexivity].
Defined.

(** C5.  [restoreCheckpoint] on a name without checkpoint returns [false]
    and leaves the manager (undo stack, redo stack, checkpoints) and the
    document as they were.  On a stored name it returns [true]; the undo
    stack has one more entry, a snapshot of the document as it was, taken
    at the time of the call; the redo stack is empty; the checkpoints are
    untouched; the document shows the checkpoint's state. *)
Theorem restoreCheckpoint_spec name now d m :
  (checkpoints m !! name = None ->
   restoreCheckpoint name now d m = (false, m, d)) /\
  (forall memento, checkpoints m !! name = Some memento ->
   exists m1 d1 pushed,
     restoreCheckpoint name now d m = (true, m1, d1) /\
     pop (undoStack m1) = Some (pushed, undoStack m) /\
     DocumentMemento.getState pushed = Document.getState d /\
     DocumentMemento.getTimestamp pushed = now /\
     redoStack m1 = [] /\
     checkpoints m1 = checkpoints m /\
     d1 = Document.restoreFromMemento memento d /\
     Document.getState d1 = DocumentMemento.getState memento).
Proof.
  unfold restoreCheckpoint. split.
  - by intros ->.
  - intros memento ->. eexists _, _, (Document.createMemento now d).
    split; [reflexivity|]. simpl.
    rewrite pop_push, getState_createMemento, getState_restoreFromMemento.
    done.
Qed.

Lemma restoreCheckpoint_spec_witness :
  let m := checkpointedWorld.1 in
  let d := checkpointedWorld.2 in
  (checkpoints m !! "v2" = None /\
   restoreCheckpoint "v2" 13 d m = (false, m, d)) /\
  (checkpoints m !! "v1" = Some (Document.createMemento 10 checkpointedDocument) /\
   (restoreCheckpoint "v1" 13 d m).1.1 = true /\
   (restoreCheckpoint "v1" 13 d m).2 = checkpointedDocument).
Proof.
  intros m d. split.
  - split; [reflexivity|].
    apply (proj1 (restoreCheckpoint_spec "v2" 13 d m)). reflexivity.
  - split; [reflexivity|].
    destruct (proj2 (restoreCheckpoint_spec "v1" 13 d m) _ eq_refl)
      as (m1 & d1 & pushed & Hr & _ & _ & _ & _ & _ & Hd & _).
    rewrite Hr. split; [reflexivity|]. exact Hd.
Defined.

(** C6.  On an empty undo stack [undo] returns [false] and leaves the
    manager and the document unchanged; on an empty redo stack [redo]
    does the same. *)
Theorem undo_redo_fail_on_empty now d m :
  (undoStack m = [] -> undo now d m = (false, m, d)) /\
  (redoStack m = [] -> redo now d m = (false, m, d)).
Proof. split; [apply undo_nil | apply redo_nil]. Qed.

Lemma undo_redo_fail_on_empty_witness :
  let m := UndoRedoManager.new in
  let d := Document.new in
  (undoStack m = [] /\ undo 1 d m = (false, m, d)) /\
  (redoStack m = [] /\ redo 1 d m = (false, m, d)).
Proof.
  intros m d.
  destruct (undo_redo_fail_on_empty 1 d m) as [Hu Hr].
  split; (split; [reflexivity|]); [apply Hu | apply Hr]; reflexivity.
Defined.

(** C7.  A successful [undo] pushes a snapshot of the current document on
    the redo stack and restores the entry it pops from the undo stack; a
    successful [redo] does the same with the stacks exchanged.  Hence a
    [redo] right after a successful [undo] succeeds and gives back the
    document as it was before the undo; it also gives back the redo
    stack, the checkpoints and, up to the timestamp of the top entry, the
    undo stack.  The same holds for an [undo] right after a successful
    [redo]. *)
Theorem undo_redo_inverse now now' d m :
  (forall m1 d1,
     undo now d m = (true, m1, d1) ->
     (exists popped,
        pop (undoStack m) = Some (popped, undoStack m1) /\
        pop (redoStack m1) = Some (Document.createMemento now d, redoStack m) /\
        d1 = Document.restoreFromMemento popped d) /\
     exists m2,
       redo now' d1 m1 = (true, m2, d) /\
       redoStack m2 = redoStack m /\
       checkpoints m2 = checkpoints m /\
       DocumentMemento.getState <$> undoStack m2
       = DocumentMemento.getState <$> undoStack m) /\
  (forall m1 d1,
     redo now d m = (true, m1, d1) ->
     (exists popped,
        pop (redoStack m) = Some (popped, redoStack m1) /\
        pop (undoStack m1) = Some (Document.createMemento now d, undoStack m) /\
        d1 = Document.restoreFromMemento popped d) /\
     exists m2,
       undo now' d1 m1 = (true, m2, d) /\
       undoStack m2 = undoStack m /\
       checkpoints m2 = checkpoints m /\
       DocumentMemento.getState <$> redoStack m2
       = DocumentMemento.getState <$> redoStack m).
Proof.
  split; intros m1 d1 Hop.
  - destruct (undo_true _ _ _ _ _ Hop) as (popped & Hu & Hr & Hc & ->).
    split.
    + exists popped. by rewrite Hu, Hr, !pop_push.
    + eexists. rewrite (redo_push _ _ _ _ _ Hr), restore_createMemento.
      split; [reflexivity|]. simpl. split_and!; [done..|].
      rewrite Hu. unfold push. rewrite !fmap_app. simpl.
      by rewrite getState_createMemento, getState_restoreFromMemento.
  - destruct (redo_true _ _ _ _ _ Hop) as (popped & Hr & Hu & Hc & ->).
    split.
    + exists popped. by rewrite Hu, Hr, !pop_push.
    + eexists. rewrite (undo_push _ _ _ _ _ Hu), restore_createMemento.
      split; [reflexivity|]. simpl. split_and!; [done..|].
      rewrite Hr. unfold push. rewrite !fmap_app. simpl.
      by rewrite getState_createMemento, getState_restoreFromMemento.
Qed.

Lemma undo_redo_inverse_witness :
  let m := editedManager in
  let d := editedDocument in
  (undo 30 d m).1.1 = true /\
  (redo 30 d m).1.1 = true /\
  redo 31 (undo 30 d m).2 (undo 30 d m).1.2 = (true, (redo 31 (undo 30 d m).2 (undo 30 d m).1.2).1.2, d) /\
  undo 31 (redo 30 d m).2 (redo 30 d m).1.2 = (true, (undo 31 (redo 30 d m).2 (redo 30 d m).1.2).1.2, d).
Proof.
  intros m d.
  destruct (undo_redo_inverse 30 31 d m) as [Hundo Hredo].
  destruct (Hundo (undo 30 d m).1.2 (undo 30 d m).2 eq_refl)
    as (_ & m2 & Hu2 & _).
  destruct (Hredo (redo 30 d m).1.2 (redo 30 d m).2 eq_refl)
    as (_ & m2' & Hr2 & _).
  split; [reflexivity|]. split; [reflexivity|].
  rewrite Hu2, Hr2. split; reflexivity.
Defined.

(** C9.  A successful [restoreCheckpoint] leaves the checkpoint map as it
    was, so the snapshot is still stored under the name and restoring the
    same name again succeeds, applies the same snapshot and again leaves
    the map as it was. *)
Theorem restoreCheckpoint_keeps_checkpoints name now now' d m m1 d1 :
  restoreCheckpoint name now d m = (true, m1, d1) ->
  checkpoints m1 = checkpoints m /\
  exists memento m2,
    checkpoints m1 !! name = Some memento /\
    d1 = Document.restoreFromMemento memento d /\
    restoreCheckpoint name now' d1 m1
    = (true, m2, Document.restoreFromMemento memento d1) /\
    Document.restoreFromMemento memento d1 = d1 /\
    checkpoints m2 = checkpoints m.
Proof.
  intros Hr.
  destruct (restoreCheckpoint_true _ _ _ _ _ _ Hr) as (memento & Hl & _ & _ & Hc & ->).
  split; [done|]. exists memento. eexists.
  rewrite Hc. split; [done|]. split; [done|].
  unfold restoreCheckpoint. rewrite Hc, Hl. split; [reflexivity|]. done.
Qed.

Lemma restoreCheckpoint_keeps_checkpoints_witness :
  let m := checkpointedWorld.1 in
  let d := checkpointedWorld.2 in
  let restored := restoreCheckpoint "v1" 13 d m in
  restored.1.1 = true /\
  checkpoints restored.1.2 = checkpoints m /\
  (restoreCheckpoint "v1" 14 restored.2 restored.1.2).1.1 = true /\
  (restoreCheckpoint "v1" 14 restored.2 restored.1.2).2 = restored.2.
Proof.
  intros m d restored.
  destruct (restoreCheckpoint_keeps_checkpoints "v1" 13 14 d m
              restored.1.2 restored.2 eq_refl)
    as (Hc & memento & m2 & _ & _ & Hr & Hd & _).
  split; [reflexivity|]. split; [exact Hc|].
  rewrite Hr. split; [reflexivity|]. exact Hd.
Defined.

(** C10.  A successful [undo] and a successful [redo] keep the sum of the
    lengths of the two stacks and leave the checkpoint map as it was. *)
Theorem undo_redo_preserve_total now d m :
  (forall m1 d1,
     undo now d m = (true, m1, d1) ->
     (length (undoStack m1) + length (redoStack m1)
      = length (undoStack m) + length (redoStack m))%nat /\
     checkpoints m1 = checkpoints m) /\
  (forall m1 d1,
     redo now d m = (true, m1, d1) ->
     (length (undoStack m1) + length (redoStack m1)
      = length (undoStack m) + length (redoStack m))%nat /\
     checkpoints m1 = checkpoints m).
Proof.
  split; intros m1 d1 Hop.
  - destruct (undo_true _ _ _ _ _ Hop) as (popped & Hu & Hr & Hc & _).
    rewrite Hu, Hr, !length_push. split; [lia|done].
  - destruct (redo_true _ _ _ _ _ Hop) as (popped & Hr & Hu & Hc & _).
    rewrite Hu, Hr, !length_push. split; [lia|done].
Qed.

Lemma undo_redo_preserve_total_witness :
  let m := editedManager in
  let d := editedDocument in
  ((undo 30 d m).1.1 = true /\
   (length (undoStack (undo 30 d m).1.2) + length (redoStack (undo 30 d m).1.2)
    = length (undoStack m) + length (redoStack m))%nat /\
   checkpoints (undo 30 d m).1.2 = checkpoints m) /\
  ((redo 30 d m).1.1 = true /\
   (length (undoStack (redo 30 d m).1.2) + length (redoStack (redo 30 d m).1.2)
    = length (undoStack m) + length (redoStack m))%nat /\
   checkpoints (redo 30 d m).1.2 = checkpoints m).
Proof.
  intros m d.
  destruct (undo_redo_preserve_total 30 d m) as [Hundo Hredo].
  split.
  - split; [reflexivity|].
    exact (Hundo (undo 30 d m).1.2 (undo 30 d m).2 eq_refl).
  - split; [reflexivity|].
    exact (Hredo (redo 30 d m).1.2 (redo 30 d m).2 eq_refl).
Defined.
End HistoryClaims.

(** ** The retry strategies and the wrappers *)

Section RequestFacts.
Context {T : Type}.
Variable fn : nat -> Settled T.
Variable errors : nat -> unknown.
Hypothesis fn_fails : forall k, fn k = Rejected (errors k).

(** With [maxRetries = n] and an operation that always fails, the loop
    entered with [attempt <= n] starts the operation for every counter
    from [attempt] to [n] included and rejects with the error of the last
    invocation, provided it is given the fuel for these turns. *)
Lemma requestLoop_fixed_fails (n : nat) (delayMs : float) fuel : forall attempt,
  (attempt <= n < attempt + fuel)%nat ->
  let run := ApiClient.requestLoop
               (ApiClient.new (FixedRetryStrategy.new (Z.of_nat n) delayMs))
               fn fuel attempt in
  attempts run.1 = seq attempt (Datatypes.S n - attempt) /\
  run.2 = Some (Rejected (errors n)).
Proof.
  induction fuel as [|fuel IH]; intros attempt Hle; [lia|].
  simpl. rewrite fn_fails. unfold FixedRetryStrategy.shouldRetry. simpl.
  destruct (Z.ltb_spec (Z.of_nat attempt) (Z.of_nat n)) as [Hlt|Hge]; simpl.
  - destruct (IH (Datatypes.S attempt)) as [Ha Hr]; [lia|].
    destruct (ApiClient.requestLoop _ fn fuel (Datatypes.S attempt))
      as [trace result].
    simpl in *. rewrite Ha, Hr.
    replace (Datatypes.S n - attempt)%nat
      with (Datatypes.S (n - attempt))%nat by lia.
    done.
  - assert (attempt = n) as -> by lia.
    replace (Datatypes.S n - n)%nat with 1%nat by lia. done.
Qed.
End RequestFacts.

(** [analyticsClient], which the file describes as "retry once", is
    [FixedRetryStrategy(1, 200)]: one retry, two invocations. *)
Example analyticsClient_retries_once :
  ApiClient.request analyticsClient
    (fun _ => Rejected (Error "503") : Settled unit) 5
  = ([Attempt 0; Wait 200; Attempt 1], Some (Rejected (Error "503"))).
Proof. reflexivity. Qed.

(** [authClient] never retries and [paymentsClient] doubles its delay. *)
Example authClient_fails_fast :
  ApiClient.request authClient
    (fun _ => Rejected (Error "401") : Settled unit) 5
  = ([Attempt 0], Some (Rejected (Error "401"))).
Proof. reflexivity. Qed.

Example paymentsClient_backs_off :
  ApiClient.request paymentsClient
    (fun k => if (k <? 3)%nat then Rejected (Error "503") else Fulfilled k) 9
  = ([Attempt 0; Wait 300; Attempt 1; Wait 600; Attempt 2; Wait 1200; Attempt 3],
     Some (Fulfilled 3%nat)).
Proof. reflexivity. Qed.

(** ** Doubles: multiplying by a power of two *)

Section Doubles.








End Doubles.

Section RetryClaims.




(** C2, as the code has it.  With [maxRetries = 3] and an operation that
    fails at every invocation, [request] starts the operation with the
    counter at 0, 1, 2 and 3 (the first attempt and three retries, each
    retry after the fixed delay), makes no fifth attempt and rejects with
    the error of the last invocation, unchanged. *)
Theorem fixed_three_retries_four_attempts {T : Type}
    (fn : nat -> Settled T) (errors : nat -> unknown) (delayMs : float)
    (fuel : nat) :
  (forall k, fn k = Rejected (errors k)) ->
  (4 <= fuel)%nat ->
  ApiClient.request (ApiClient.new (FixedRetryStrategy.new 3 delayMs)) fn fuel
  = ([Attempt 0; Wait delayMs; Attempt 1; Wait delayMs;
      Attempt 2; Wait delayMs; Attempt 3],
     Some (Rejected (errors 3%nat))).
Proof.
  intros Hfn Hfuel.
  do 4 (destruct fuel as [|fuel]; [lia|]).
  unfold ApiClient.request. simpl. rewrite !Hfn. reflexivity.
Qed.

Lemma fixed_three_retries_four_attempts_witness :
  let fn : nat -> Settled unit := fun _ => Rejected (Error "503") in
  (forall k, fn k = Rejected (Error "503")) /\
  (4 <= 4)%nat /\
  ApiClient.request (ApiClient.new (FixedRetryStrategy.new 3 1000)) fn 4
  = ([Attempt 0; Wait 1000; Attempt 1; Wait 1000;
      Attempt 2; Wait 1000; Attempt 3],
     Some (Rejected (Error "503"))).
Proof.
  intros fn. split; [reflexivity|]. split; [lia|].
  apply (fixed_three_retries_four_attempts fn (fun _ => Error "503") 1000 4);
    [reflexivity | lia].
Defined.

(** C2, as the claim has it, fails: with [maxRetries = 3] the operation
    that always fails is started four times, the fourth time with the
    counter at 3, before the error is passed on. *)
Lemma fixed_three_retries_not_three_attempts :
  let fn : nat -> Settled unit := fun _ => Rejected (Error "503") in
  let run := ApiClient.request
               (ApiClient.new (FixedRetryStrategy.new 3 1000)) fn 10 in
  run.2 = Some (Rejected (Error "503")) /\
  attempts run.1 = [0; 1; 2; 3]%nat /\
  attempts run.1 <> [0; 1; 2]%nat.
Proof. done. Qed.
End RetryClaims.

Section CancellationFacts.
Context {S : Type} `{RetryStrategy S} {Json : Type}.
Variable url : string.
Variable strategy : S.
Variable platform : Platform.t Json.

Lemma isAbortError_wrapper : isAbortError wrapperAbortError = true.
Proof. reflexivity. Qed.



Lemma executeLoop_aborted fuel attempt :
  executeLoop url strategy platform (Datatypes.S fuel) attempt true
  = ([], Some (Rejected wrapperAbortError)).
Proof. reflexivity. Qed.


End CancellationFacts.

Section CancellationClaim.
Context {S : Type} `{RetryStrategy S} {Json : Type}.

End CancellationClaim.



(** * Further properties of the history manager *)

Section HistoryProperties.
Import UndoRedoManager.
Implicit Types (m : UndoRedoManager.t) (d : Document.t) (now : Z).

(** X1.  A snapshot restores exactly the document it was taken from,
    whatever the document has become in the meantime and whenever the
    snapshot was taken; the state read from the snapshot is the state the
    document had. *)
Theorem snapshot_round_trip now d (edits : list Action) m :
  let edited := (performAll edits (m, d)).2 in
  Document.restoreFromMemento (Document.createMemento now d) edited = d /\
  DocumentMemento.getState (Document.createMemento now d) = Document.getState d /\
  DocumentMemento.getTimestamp (Document.createMemento now d) = now.
Proof.
  intros edited. split; [apply restore_createMemento|].
  split; [apply getState_createMemento|reflexivity].
Qed.

(** X2.  [undo] returns [true] exactly when the undo stack is not empty,
    and [redo] exactly when the redo stack is not empty. *)
Theorem undo_redo_succeed_iff_nonempty now d m :
  ((undo now d m).1.1 = true <-> undoStack m <> []) /\
  ((redo now d m).1.1 = true <-> redoStack m <> []).
Proof.
  split.
  - destruct (undoStack m) as [|x l _] eqn:E using rev_ind.
    + rewrite (undo_nil _ _ _ E). simpl. split; [done|by intros []].
    + rewrite (undo_push now d m l x E). simpl. split; [|done].
      intros _ Hnil. by apply app_eq_nil in Hnil as [_ ?].
  - destruct (redoStack m) as [|x l _] eqn:E using rev_ind.
    + rewrite (redo_nil _ _ _ E). simpl. split; [done|by intros []].
    + rewrite (redo_push now d m l x E). simpl. split; [|done].
      intros _ Hnil. by apply app_eq_nil in Hnil as [_ ?].
Qed.

(** X3.  An [undo] right after [saveState] succeeds but leaves the document
    as it is: it pops the snapshot that was just pushed.  The undo stack is
    back to what it was before the save and the redo stack holds one
    snapshot of the current document. *)
Theorem undo_after_saveState_keeps_document now now' d m :
  undo now' d (saveState now d m)
  = (true,
     mk (undoStack m) [Document.createMemento now' d] (checkpoints m),
     d).
Proof.
  rewrite (undo_push now' d (saveState now d m) (undoStack m)
             (Document.createMemento now d) eq_refl).
  by rewrite restore_createMemento.
Qed.

(** X4.  A jump to a checkpoint can be undone: after a successful
    [restoreCheckpoint] an [undo] succeeds, gives back the document as it
    was before the jump and the undo stack as it was; a [redo] after that
    returns to the checkpoint's state. *)
Theorem restoreCheckpoint_undoable name now now' now'' d m m1 d1 :
  restoreCheckpoint name now d m = (true, m1, d1) ->
  exists m2 m3,
    undo now' d1 m1 = (true, m2, d) /\
    undoStack m2 = undoStack m /\
    checkpoints m2 = checkpoints m /\
    redo now'' d m2 = (true, m3, d1).
Proof.
  intros Hr.
  destruct (restoreCheckpoint_true _ _ _ _ _ _ Hr) as (memento & _ & Hu & Hredo & Hc & ->).
  eexists _, _. rewrite (undo_push _ _ _ _ _ Hu), restore_createMemento, Hredo.
  split; [reflexivity|]. simpl. split; [done|]. split; [done|].
  erewrite (redo_push now'' d _ []); [|reflexivity].
  by rewrite restore_createMemento.
Qed.

Lemma restoreCheckpoint_undoable_witness :
  let m := checkpointedWorld.1 in
  let d := checkpointedWorld.2 in
  let jumped := restoreCheckpoint "v1" 13 d m in
  jumped.1.1 = true /\
  Document.getText jumped.2 = "Version 1" /\
  (undo 14 jumped.2 jumped.1.2).2 = d /\
  Document.getText d = "Version 3 - More Changes".
Proof.
  intros m d jumped.
  destruct (restoreCheckpoint_undoable "v1" 13 14 15 d m jumped.1.2 jumped.2
              eq_refl) as (m2 & m3 & Hu & _).
  split; [reflexivity|]. split; [reflexivity|].
  rewrite Hu. split; reflexivity.
Defined.
End HistoryProperties.

Section CheckpointProperties.
Import UndoRedoManager.
Implicit Types (m : UndoRedoManager.t) (d : Document.t) (now : Z).

(** X5.  [createCheckpoint] stores a snapshot that a later
    [restoreCheckpoint] of the same name applies in full, on any document;
    creating the name again replaces the snapshot; other names keep
    theirs; the number of checkpoints grows by one for a new name and
    stays the same for a name that is overwritten; the stacks are not
    touched. *)
Theorem createCheckpoint_spec name now d m :
  let m1 := createCheckpoint name now d m in
  (forall now' d',
     exists m2, restoreCheckpoint name now' d' m1 = (true, m2, d)) /\
  (forall now0 d0,
     createCheckpoint name now d (createCheckpoint name now0 d0 m) = m1) /\
  (forall other, other <> name ->
     checkpoints m1 !! other = checkpoints m !! other) /\
  checkpointCount (getStats m1)
  = (if bool_decide (is_Some (checkpoints m !! name))
     then checkpointCount (getStats m)
     else Datatypes.S (checkpointCount (getStats m))) /\
  undoStack m1 = undoStack m /\ redoStack m1 = redoStack m.
Proof.
  intros m1. split_and!; [| | |  |done|done].
  - intros now' d'. eexists. unfold restoreCheckpoint, m1. simpl.
    rewrite lookup_insert_eq, restore_createMemento. reflexivity.
  - intros now0 d0. unfold m1, createCheckpoint. simpl.
    by rewrite insert_insert_eq.
  - intros other Hne. unfold m1. simpl. by rewrite lookup_insert_ne.
  - unfold m1. simpl. rewrite map_size_insert.
    destruct (checkpoints m !! name) eqn:E.
    + rewrite bool_decide_eq_true_2; [done|by eexists].
    + rewrite bool_decide_eq_false_2; [done|]. by intros [? ?].
Qed.

(** X6.  [deleteCheckpoint] returns [true] exactly when the name had a
    checkpoint.  Afterwards a [restoreCheckpoint] of the name fails and
    changes nothing, a second [deleteCheckpoint] returns [false], the other
    names keep their snapshots and the stacks are not touched. *)
Theorem deleteCheckpoint_spec name m :
  let m1 := (deleteCheckpoint name m).2 in
  ((deleteCheckpoint name m).1 = true <-> is_Some (checkpoints m !! name)) /\
  (forall now d, restoreCheckpoint name now d m1 = (false, m1, d)) /\
  (deleteCheckpoint name m1).1 = false /\
  (forall other, other <> name ->
     checkpoints m1 !! other = checkpoints m !! other) /\
  undoStack m1 = undoStack m /\ redoStack m1 = redoStack m.
Proof.
  intros m1. split_and!; [| | | |done|done].
  - unfold deleteCheckpoint. simpl. apply bool_decide_eq_true.
  - intros now d. unfold restoreCheckpoint, m1. simpl.
    by rewrite lookup_delete_eq.
  - unfold m1, deleteCheckpoint. simpl. rewrite lookup_delete_eq.
    apply bool_decide_eq_false_2. by intros [? ?].
  - intros other Hne. unfold m1. simpl. by rewrite lookup_delete_ne.
Qed.

(** X7.  After [clearHistory] nothing can be brought back: [undo], [redo]
    and [restoreCheckpoint] of any name return [false] and leave the
    document and the manager as they are, and all three counters of
    [getStats] are 0. *)
Theorem clearHistory_forgets_everything m :
  let m0 := clearHistory m in
  (forall now d, undo now d m0 = (false, m0, d)) /\
  (forall now d, redo now d m0 = (false, m0, d)) /\
  (forall name now d, restoreCheckpoint name now d m0 = (false, m0, d)) /\
  getStats m0 = mkStats 0 0 0.
Proof.
  intros m0. split_and!; done.
Qed.

Lemma perform_keepsCheckpoint name action w :
  keepsCheckpoint name action = true ->
  checkpoints (perform w action).1 !! name = checkpoints w.1 !! name.
Proof.
  destruct w as [m d].
  destruct action as [| | | | |now|now|name' now|name' now|name'|];
    simpl; try done.
  - intros _. unfold undoOnce. simpl.
    destruct (undo now d m) as [[[|] m1] d1] eqn:E; simpl.
    + by destruct (undo_true _ _ _ _ _ E) as (_ & _ & _ & -> & _).
    + by destruct (undo_false _ _ _ _ _ E) as (_ & -> & _).
  - intros _. unfold redoOnce. simpl. unfold redo.
    destruct (length (redoStack m) =? 0)%nat; [done|].
    by destruct (pop (redoStack m)) as [[? ?]|].
  - intros Hne%bool_decide_eq_true. by rewrite lookup_insert_ne.
  - intros _. unfold restoreCheckpoint.
    by destruct (checkpoints m !! name').
  - intros Hne%bool_decide_eq_true. by rewrite lookup_delete_ne.
Qed.

Lemma performAll_keepsCheckpoint name script : forall w,
  forallb (keepsCheckpoint name) script = true ->
  checkpoints (performAll script w).1 !! name = checkpoints w.1 !! name.
Proof.
  induction script as [|action script IH]; intros w Hkeeps; [done|].
  simpl in Hkeeps. apply andb_true_iff in Hkeeps as [Hkeep Hkeeps].
  unfold performAll in *. simpl. rewrite IH by done.
  by apply perform_keepsCheckpoint.
Qed.

(** X8.  A checkpoint outlives every use of the editor that does not
    create or delete its name and does not clear the history: after any
    such sequence of edits, saves, undos, redos, jumps and operations on
    other checkpoints, [restoreCheckpoint] of the name succeeds and the
    document is again exactly the one that was checkpointed. *)
Theorem checkpoint_survives_history name now now' d m (script : list Action) :
  forallb (keepsCheckpoint name) script = true ->
  let w := performAll script (createCheckpoint name now d m, d) in
  exists m',
    restoreCheckpoint name now' w.2 w.1 = (true, m', d) /\
    checkpoints m' = checkpoints w.1.
Proof.
  intros Hkeeps w.
  pose proof (performAll_keepsCheckpoint name script
                (createCheckpoint name now d m, d) Hkeeps) as Hl.
  simpl in Hl. rewrite lookup_insert_eq in Hl. fold w in Hl.
  unfold restoreCheckpoint. rewrite Hl, restore_createMemento.
  eexists. split; reflexivity.
Qed.

Lemma checkpoint_survives_history_witness :
  let script :=
    [SetText "Version 2 - Major Changes"; SetFontSize 14; SetLineSpacing 2;
     SaveState 11; SetText "Version 3 - More Changes"; SetFontSize 16;
     SaveState 12; UndoCall 13; CreateCheckpoint "v3" 14;
     RestoreCheckpoint "v3" 15; DeleteCheckpoint "v3"; RedoCall 16] in
  let w := performAll script
             (createCheckpoint "v1" 10 checkpointedDocument UndoRedoManager.new,
              checkpointedDocument) in
  forallb (keepsCheckpoint "v1") script = true /\
  Document.getText w.2 = "Version 3 - More Changes" /\
  (restoreCheckpoint "v1" 17 w.2 w.1).1.1 = true /\
  (restoreCheckpoint "v1" 17 w.2 w.1).2 = checkpointedDocument.
Proof.
  intros script w.
  destruct (checkpoint_survives_history "v1" 10 17 checkpointedDocument
              UndoRedoManager.new script eq_refl) as (m' & Hr & _).
  fold w in Hr.
  split; [reflexivity|]. split; [reflexivity|]. rewrite Hr. split; reflexivity.
Defined.
End CheckpointProperties.

Section HistoryInvariants.
Import UndoRedoManager.
Implicit Types (m : UndoRedoManager.t) (d : Document.t) (now : Z).

Lemma elem_of_push {A} (l : list A) (x y : A) :
  y ∈ push l x <-> y ∈ l \/ y = x.
Proof. unfold push. rewrite elem_of_app, list_elem_of_singleton. done. Qed.

(** A memento held after a call was held before it or is a snapshot of the
    document as it was when the call was made. *)
Lemma perform_holds action w memento :
  holds (perform w action).1 memento ->
  holds w.1 memento \/ exists now, memento = Document.createMemento now w.2.
Proof.
  destruct w as [m d]. unfold holds.
  destruct action as [| | | | now|now|now|name now|name now|name|];
    simpl; try tauto.
  - rewrite elem_of_push.
    intros [[?| ->]|[?%elem_of_nil|?]]; try done; eauto.
  - unfold undoOnce. simpl.
    destruct (undo now d m) as [[[|] m1] d1] eqn:E; simpl.
    + destruct (undo_true _ _ _ _ _ E) as (popped & Hu & Hr & Hc & _).
      rewrite Hu, Hr, Hc, !elem_of_push. intros [?|[[?| ->]|?]]; eauto 6.
    + destruct (undo_false _ _ _ _ _ E) as (_ & -> & _). tauto.
  - unfold redoOnce. simpl.
    destruct (redo now d m) as [[[|] m1] d1] eqn:E; simpl.
    + destruct (redo_true _ _ _ _ _ E) as (popped & Hr & Hu & Hc & _).
      rewrite Hu, Hr, Hc, !elem_of_push. intros [[?| ->]|[?|?]]; eauto 6.
    + revert E. unfold redo.
      destruct (length (redoStack m) =? 0)%nat; [intros [= <- _]; tauto|].
      destruct (pop (redoStack m)) as [[? ?]|]; [done|intros [= <- _]; tauto].
  - intros [?|[?|[name' Hl]]]; [tauto..|].
    destruct (decide (name = name')) as [<-|Hne].
    + rewrite lookup_insert_eq in Hl. injection Hl as <-. eauto.
    + rewrite lookup_insert_ne in Hl by done. eauto 6.
  - unfold restoreCheckpoint. destruct (checkpoints m !! name); simpl; [|tauto].
    rewrite elem_of_push.
    intros [[?| ->]|[?%elem_of_nil|?]]; try done; eauto.
  - intros [?|[?|[name' Hl]]]; [tauto..|].
    apply lookup_delete_Some in Hl as [_ Hl]. eauto 6.
  - intros [?%elem_of_nil|[?%elem_of_nil|[name' Hl]]]; done.
Qed.

Lemma performAll_holds script : forall w (seen : list DocumentState.t),
  (forall memento, holds w.1 memento ->
     DocumentMemento.getState memento ∈ seen) ->
  forall memento, holds (performAll script w).1 memento ->
    DocumentMemento.getState memento ∈ seen ++ visited script w.
Proof.
  induction script as [|action script IH]; intros w seen Hseen memento Hholds.
  - apply elem_of_app. left. by apply Hseen.
  - simpl. rewrite (assoc_L (++) seen [_] _ : seen ++ _ :: _ = _).
    apply (IH (perform w action)); [|done].
    intros memento' [Hold|[now ->]]%perform_holds; apply elem_of_app.
    + left. by apply Hseen.
    + right. rewrite getState_createMemento. by apply list_elem_of_singleton.
Qed.

(** X9.  The manager never makes up a state: whatever a client does with a
    new manager, every snapshot that the manager holds afterwards (on the
    undo stack, on the redo stack or as a checkpoint) is a state that the
    document really had at some point of the session; so an [undo], a
    [redo] or a jump can only bring the document to such a state. *)
Theorem snapshots_are_visited_states (script : list Action) d0 memento :
  holds (performAll script (UndoRedoManager.new, d0)).1 memento ->
  DocumentMemento.getState memento ∈ visited script (UndoRedoManager.new, d0).
Proof.
  intros Hholds.
  apply (performAll_holds script (UndoRedoManager.new, d0) []); [|done].
  intros memento' [?%elem_of_nil|[?%elem_of_nil|[name Hl]]]; done.
Qed.
End HistoryInvariants.

Lemma snapshots_are_visited_states_witness :
  let script := [SetText "A"; SaveState 1; SetText "B"; UndoCall 2] in
  let w := performAll script (UndoRedoManager.new, Document.new) in
  let memento := Document.createMemento 2 (Document.setText "B" Document.new) in
  holds w.1 memento /\
  Document.getText w.2 = "A" /\
  DocumentMemento.getState memento
  ∈ visited script (UndoRedoManager.new, Document.new).
Proof.
  intros script w memento.
  assert (holds w.1 memento) as Hholds.
  { right. left. apply list_elem_of_singleton. reflexivity. }
  split; [exact Hholds|]. split; [reflexivity|].
  exact (snapshots_are_visited_states script Document.new memento Hholds).
Defined.

Section UndoRedoSequences.
Import UndoRedoManager.
Implicit Types (m : UndoRedoManager.t) (d : Document.t) (now : Z).

Lemma redoOnce_push now d m r memento :
  redoStack m = push r memento ->
  redoOnce (m, d) now
  = (mk (push (undoStack m) (Document.createMemento now d)) r (checkpoints m),
     Document.restoreFromMemento memento d).
Proof.
  intros Hr. unfold redoOnce. simpl. by rewrite (redo_push _ _ _ _ _ Hr).
Qed.

Lemma redoAll_snoc nows now w :
  redoAll (nows ++ [now]) w = redoOnce (redoAll nows w) now.
Proof. unfold redoAll. by rewrite foldl_snoc. Qed.

(** X10.  As many redos as undos bring everything back: after [n] undos,
    [n] at most the height of the undo stack, followed by [n] redos, the
    document is exactly what it was, the redo stack and the checkpoints are
    what they were, and the undo stack holds the same states in the same
    order (its re-pushed entries carry new timestamps). *)
Theorem undos_then_redos_round_trip (undoTimes : list Z) :
  forall (redoTimes : list Z) m d,
  length redoTimes = length undoTimes ->
  (length undoTimes <= length (undoStack m))%nat ->
  let w := redoAll redoTimes (undoAll undoTimes (m, d)) in
  w.2 = d /\
  redoStack w.1 = redoStack m /\
  checkpoints w.1 = checkpoints m /\
  DocumentMemento.getState <$> undoStack w.1
  = DocumentMemento.getState <$> undoStack m.
Proof.
  induction undoTimes as [|now undoTimes IH]; intros redoTimes m d Hlen Hheight.
  - destruct redoTimes; [done|simpl in Hlen; lia].
  - destruct redoTimes as [|now' redoTimes _] using rev_ind;
      [simpl in Hlen; lia|].
    rewrite length_app in Hlen. simpl in Hlen.
    destruct (undoStack m) as [|popped u _] eqn:Hu using rev_ind;
      [simpl in Hheight; lia|].
    rewrite length_app in Hheight. simpl in Hheight.
    rewrite undoAll_cons, (undoOnce_push now d m u popped Hu), redoAll_snoc.
    set (m1 := mk u _ _). set (d1 := Document.restoreFromMemento popped d).
    destruct (IH redoTimes m1 d1) as (Hd & Hr & Hc & Hstates);
      [lia|simpl; lia|].
    destruct (redoAll redoTimes (undoAll undoTimes (m1, d1))) as [m2 d2].
    simpl in Hd, Hr, Hc, Hstates. subst d2.
    rewrite (redoOnce_push now' d1 m2 _ _ Hr). simpl.
    rewrite restore_createMemento. split_and!; [done..|].
    unfold push. rewrite !fmap_app, Hstates. simpl.
    unfold d1. by rewrite getState_createMemento, getState_restoreFromMemento.
Qed.

Lemma undos_then_redos_round_trip_witness :
  let w0 := saveAll [("State A", 21); ("State B", 22); ("State C", 23)]
              (UndoRedoManager.new, Document.new) in
  let w := redoAll [33; 34; 35] (undoAll [30; 31; 32] w0) in
  length [33; 34; 35] = length [30; 31; 32] /\
  (length [30; 31; 32] <= length (undoStack w0.1))%nat /\
  Document.getText (undoAll [30; 31; 32] w0).2 = "State A" /\
  w.2 = w0.2 /\
  DocumentMemento.getState <$> undoStack w.1
  = DocumentMemento.getState <$> undoStack w0.1.
Proof.
  intros w0 w.
  assert (length [30; 31; 32] <= length (undoStack w0.1))%nat as Hheight
    by (simpl; lia).
  destruct (undos_then_redos_round_trip [30; 31; 32] [33; 34; 35] w0.1 w0.2
              eq_refl Hheight) as (Hd & _ & _ & Hstates).
  split; [reflexivity|]. split; [exact Hheight|]. split; [reflexivity|].
  split; [exact Hd | exact Hstates].
Defined.

Lemma undoAll_saveAll_text_witness :
  let edits := [("Hello", 1); ("Hello World", 2); ("Hello World!", 3)] in
  let nows := [4; 5] in
  (0 < length nows <= length edits)%nat /\
  Document.getText
    (undoAll nows (saveAll edits (UndoRedoManager.new, Document.new))).2
  = "Hello World".
Proof.
  intros edits nows.
  assert (0 < length nows <= length edits)%nat as Hlen by (simpl; lia).
  split; [exact Hlen|].
  pose proof (undoAll_saveAll_text edits nows UndoRedoManager.new Document.new
                Hlen) as Htext.
  apply (inj Some). rewrite <- Htext. reflexivity.
Defined.
End UndoRedoSequences.

(** * Further properties of the retry wrappers *)

Section RequestProperties.
Context {S : Type} `{RetryStrategy S} {T : Type}.
Variable strategy : S.
Variable fn : nat -> Settled T.

Local Abbreviation loop := (ApiClient.requestLoop (ApiClient.new strategy) fn).

(** The counter goes up by one from one invocation to the next. *)
Lemma requestLoop_attempts_consecutive fuel : forall attempt,
  attempts (loop fuel attempt).1
  = seq attempt (length (attempts (loop fuel attempt).1)).
Proof.
  induction fuel as [|fuel IH]; intros attempt; [done|].
  simpl. destruct (fn attempt) as [value|error]; [done|].
  destruct (shouldRetry strategy error attempt); simpl; [|done].
  specialize (IH (Datatypes.S attempt)).
  destruct (loop fuel (Datatypes.S attempt)) as [trace result].
  simpl in *. by rewrite IH at 1.
Qed.

Lemma requestLoop_started fuel attempt :
  (0 < fuel)%nat -> (0 < length (attempts (loop fuel attempt).1))%nat.
Proof.
  destruct fuel as [|fuel]; [lia|]. intros _. simpl.
  destruct (fn attempt) as [value|error]; [simpl; lia|].
  destruct (shouldRetry strategy error attempt); simpl; [|lia].
  destruct (loop fuel (Datatypes.S attempt)). simpl. lia.
Qed.

(** A strategy that refuses every retry from attempt [n] on makes the loop
    settle after at most [n + 1] invocations. *)
Lemma requestLoop_settles (n : nat) :
  (forall error a, (n <= a)%nat -> shouldRetry strategy error a = false) ->
  forall fuel attempt,
    (0 < fuel)%nat -> (n < attempt + fuel)%nat ->
    is_Some (loop fuel attempt).2 /\
    (length (attempts (loop fuel attempt).1) <= Datatypes.S (n - attempt))%nat.
Proof.
  intros Hstop. induction fuel as [|fuel IH]; intros attempt Hpos Hfuel; [lia|].
  simpl. destruct (fn attempt) as [value|error]; [simpl; split; [eauto|lia]|].
  destruct (shouldRetry strategy error attempt) eqn:Eretry; simpl;
    [|split; [eauto|lia]].
  assert (attempt < n)%nat as Hlt.
  { destruct (decide (n <= attempt)%nat) as [Hle|]; [|lia].
    rewrite (Hstop error attempt Hle) in Eretry. done. }
  destruct (IH (Datatypes.S attempt)) as [Hsome Hlen]; [lia..|].
  destruct (loop fuel (Datatypes.S attempt)) as [trace result].
  simpl in *. split; [done|lia].
Qed.

(** Such a strategy never lets the loop make more than [n + 1]
    invocations, however long it runs. *)
Lemma requestLoop_bounded (n : nat) :
  (forall error a, (n <= a)%nat -> shouldRetry strategy error a = false) ->
  forall fuel attempt,
    (length (attempts (loop fuel attempt).1) <= Datatypes.S (n - attempt))%nat.
Proof.
  intros Hstop. induction fuel as [|fuel IH]; intros attempt; [simpl; lia|].
  simpl. destruct (fn attempt) as [value|error]; [simpl; lia|].
  destruct (shouldRetry strategy error attempt) eqn:Eretry; simpl; [|lia].
  assert (attempt < n)%nat as Hlt.
  { destruct (decide (n <= attempt)%nat) as [Hle|]; [|lia].
    rewrite (Hstop error attempt Hle) in Eretry. done. }
  specialize (IH (Datatypes.S attempt)).
  destruct (loop fuel (Datatypes.S attempt)) as [trace result].
  simpl in *. lia.
Qed.

(** While the operation fails and the strategy agrees to retry, the loop
    goes on; it stops at the first invocation that succeeds. *)
Lemma requestLoop_first_success (k : nat) value :
  (forall j, (j < k)%nat ->
     exists error, fn j = Rejected error /\ shouldRetry strategy error j = true) ->
  fn k = Fulfilled value ->
  forall fuel attempt,
    (attempt <= k < attempt + fuel)%nat ->
    (loop fuel attempt).2 = Some (Fulfilled value) /\
    attempts (loop fuel attempt).1 = seq attempt (Datatypes.S k - attempt) /\
    waits (loop fuel attempt).1 = getDelay strategy <$> seq attempt (k - attempt).
Proof.
  intros Hfail Hok. induction fuel as [|fuel IH]; intros attempt Hle; [lia|].
  simpl. destruct (decide (attempt = k)) as [->|Hne].
  - rewrite Hok. simpl.
    replace (Datatypes.S k - k)%nat with 1%nat by lia.
    replace (k - k)%nat with 0%nat by lia. done.
  - destruct (Hfail attempt) as (error & -> & ->); [lia|]. simpl.
    destruct (IH (Datatypes.S attempt)) as (Hr & Ha & Hw); [lia|].
    destruct (loop fuel (Datatypes.S attempt)) as [trace result].
    simpl in *. rewrite Hr, Ha, Hw.
    replace (Datatypes.S k - attempt)%nat
      with (Datatypes.S (k - attempt))%nat by lia.
    replace (k - attempt)%nat
      with (Datatypes.S (k - Datatypes.S attempt))%nat by lia.
    done.
Qed.

(** While the operation fails, the loop uses up the retries that the
    strategy grants and passes on the error of the last invocation. *)
Lemma requestLoop_exhausts (n : nat) (errors : nat -> unknown) :
  (forall j, fn j = Rejected (errors j)) ->
  (forall j, (j < n)%nat -> shouldRetry strategy (errors j) j = true) ->
  shouldRetry strategy (errors n) n = false ->
  forall fuel attempt,
    (attempt <= n < attempt + fuel)%nat ->
    (loop fuel attempt).2 = Some (Rejected (errors n)) /\
    attempts (loop fuel attempt).1 = seq attempt (Datatypes.S n - attempt) /\
    waits (loop fuel attempt).1 = getDelay strategy <$> seq attempt (n - attempt).
Proof.
  intros Hfail Hretry Hstop.
  induction fuel as [|fuel IH]; intros attempt Hle; [lia|].
  simpl. rewrite Hfail. destruct (decide (attempt = n)) as [->|Hne].
  - rewrite Hstop. simpl.
    replace (Datatypes.S n - n)%nat with 1%nat by lia.
    replace (n - n)%nat with 0%nat by lia. done.
  - rewrite Hretry by lia. simpl.
    destruct (IH (Datatypes.S attempt)) as (Hr & Ha & Hw); [lia|].
    destruct (loop fuel (Datatypes.S attempt)) as [trace result].
    simpl in *. rewrite Hr, Ha, Hw.
    replace (Datatypes.S n - attempt)%nat
      with (Datatypes.S (n - attempt))%nat by lia.
    replace (n - attempt)%nat
      with (Datatypes.S (n - Datatypes.S attempt))%nat by lia.
    done.
Qed.
End RequestProperties.

Lemma fmap_const_seq {A} (x : A) (n : nat) : forall a,
  (fun _ : nat => x) <$> seq a n = replicate n x.
Proof. induction n as [|n IH]; intros a; [done|]. simpl. by rewrite IH. Qed.

Lemma stops_at_maxRetries (maxRetries : Z) (a : nat) :
  (Z.to_nat maxRetries <= a)%nat -> (Z.of_nat a <? maxRetries) = false.
Proof. intros Hle. apply Z.ltb_ge. lia. Qed.

Section RequestTheorems.
Context {T : Type}.
Variable fn : nat -> Settled T.

(** X11.  With [FixedRetryStrategy] or [ExponentialBackoffStrategy] and an
    integer [maxRetries], [request] never invokes the operation more than
    [maxRetries + 1] times (once when [maxRetries] is 0 or negative),
    however long it runs, and the counter is 0, 1, 2, ... from one
    invocation to the next.  When every invocation settles (the promise of
    [fn] fulfils or rejects), [request] settles too, after at least one
    invocation: as many turns of the loop as [maxRetries + 1] are enough.
    With [FailFastStrategy] and an invocation that settles, [request]
    invokes the operation exactly once, never arms a timer and settles as
    that invocation does. *)
Theorem request_settles_within_maxRetries (fuel : nat) :
  (forall self : FixedRetryStrategy.t,
     let n := Z.to_nat (FixedRetryStrategy.maxRetries self) in
     let run := ApiClient.request (ApiClient.new self) fn fuel in
     (length (attempts run.1) <= n + 1)%nat /\
     attempts run.1 = seq 0 (length (attempts run.1)) /\
     ((n < fuel)%nat ->
      is_Some run.2 /\ (1 <= length (attempts run.1))%nat)) /\
  (forall self : ExponentialBackoffStrategy.t,
     let n := Z.to_nat (ExponentialBackoffStrategy.maxRetries self) in
     let run := ApiClient.request (ApiClient.new self) fn fuel in
     (length (attempts run.1) <= n + 1)%nat /\
     attempts run.1 = seq 0 (length (attempts run.1)) /\
     ((n < fuel)%nat ->
      is_Some run.2 /\ (1 <= length (attempts run.1))%nat)) /\
  (forall self : FailFastStrategy.t,
     (0 < fuel)%nat ->
     ApiClient.request (ApiClient.new self) fn fuel
     = ([Attempt 0], Some (fn 0%nat))).
Proof.
  split_and!.
  - intros self n run.
    assert (forall error a,
              (n <= a)%nat -> shouldRetry self error a = false) as Hstop
      by (intros error a; apply stops_at_maxRetries).
    pose proof (requestLoop_bounded self fn n Hstop fuel 0%nat) as Hbound.
    split; [unfold run, ApiClient.request; lia|].
    split; [apply requestLoop_attempts_consecutive|]. intros Hfuel.
    destruct (requestLoop_settles self fn n Hstop fuel 0%nat)
      as [Hsome _]; [lia..|].
    pose proof (requestLoop_started self fn fuel 0%nat ltac:(lia)).
    split; [done|unfold run, ApiClient.request; lia].
  - intros self n run.
    assert (forall error a,
              (n <= a)%nat -> shouldRetry self error a = false) as Hstop
      by (intros error a; apply stops_at_maxRetries).
    pose proof (requestLoop_bounded self fn n Hstop fuel 0%nat) as Hbound.
    split; [unfold run, ApiClient.request; lia|].
    split; [apply requestLoop_attempts_consecutive|]. intros Hfuel.
    destruct (requestLoop_settles self fn n Hstop fuel 0%nat)
      as [Hsome _]; [lia..|].
    pose proof (requestLoop_started self fn fuel 0%nat ltac:(lia)).
    split; [done|unfold run, ApiClient.request; lia].
  - intros self Hfuel. destruct fuel as [|fuel]; [lia|].
    unfold ApiClient.request. simpl. by destruct (fn 0%nat).
Qed.

(** X12.  [request] returns the first success: if the first [k]
    invocations fail with errors that the strategy agrees to retry and
    invocation [k] succeeds, the call fulfils with that value after exactly
    [k + 1] invocations, having waited [getDelay(0)], ..., [getDelay(k-1)]
    in between.  This holds for every strategy. *)
Theorem request_returns_first_success {S : Type} `{RetryStrategy S}
    (strategy : S) (k : nat) (value : T) (fuel : nat) :
  (forall j, (j < k)%nat ->
     exists error, fn j = Rejected error /\ shouldRetry strategy error j = true) ->
  fn k = Fulfilled value ->
  (k < fuel)%nat ->
  let run := ApiClient.request (ApiClient.new strategy) fn fuel in
  run.2 = Some (Fulfilled value) /\
  attempts run.1 = seq 0 (k + 1) /\
  waits run.1 = getDelay strategy <$> seq 0 k.
Proof.
  intros Hfail Hok Hfuel run.
  destruct (requestLoop_first_success strategy fn k value Hfail Hok fuel 0%nat)
    as (Hr & Ha & Hw); [lia|].
  unfold run, ApiClient.request. rewrite Hr, Ha, Hw.
  replace (Datatypes.S k - 0)%nat with (k + 1)%nat by lia.
  replace (k - 0)%nat with k by lia. done.
Qed.

(** X13.  The worst case: when the operation fails at every invocation and
    [maxRetries] is the integer [n], [request] makes [n + 1] invocations
    and rejects with the error of the last one.  Between them it arms [n]
    timers: with [FixedRetryStrategy] each with the delay [delayMs], with
    [ExponentialBackoffStrategy] with the delays [baseDelay * 2^0],
    [baseDelay * 2^1], ..., [baseDelay * 2^(n-1)] as doubles. *)
Theorem retries_exhausted (errors : nat -> unknown) (n fuel : nat) :
  (forall j, fn j = Rejected (errors j)) ->
  (n < fuel)%nat ->
  (forall delayMs,
     let run := ApiClient.request
                  (ApiClient.new (FixedRetryStrategy.new (Z.of_nat n) delayMs))
                  fn fuel in
     run.2 = Some (Rejected (errors n)) /\
     attempts run.1 = seq 0 (n + 1) /\
     waits run.1 = replicate n delayMs) /\
  (forall baseDelay,
     let run := ApiClient.request
                  (ApiClient.new
                     (ExponentialBackoffStrategy.new (Z.of_nat n) baseDelay))
                  fn fuel in
     run.2 = Some (Rejected (errors n)) /\
     attempts run.1 = seq 0 (n + 1) /\
     waits run.1 = (fun i : nat => (baseDelay * pow2 i)%float) <$> seq 0 n).
Proof.
  intros Hfail Hfuel. split.
  - intros delayMs run.
    destruct (requestLoop_exhausts (FixedRetryStrategy.new (Z.of_nat n) delayMs)
                fn n errors Hfail) with (fuel := fuel) (attempt := 0%nat)
      as (Hr & Ha & Hw).
    { intros j Hj. apply Z.ltb_lt. simpl. lia. }
    { apply Z.ltb_ge. simpl. lia. }
    { lia. }
    unfold run, ApiClient.request. rewrite Hr, Ha, Hw.
    replace (Datatypes.S n - 0)%nat with (n + 1)%nat by lia.
    replace (n - 0)%nat with n by lia.
    change (getDelay (FixedRetryStrategy.new (Z.of_nat n) delayMs))
      with (fun _ : nat => delayMs).
    by rewrite fmap_const_seq.
  - intros baseDelay run.
    destruct (requestLoop_exhausts
                (ExponentialBackoffStrategy.new (Z.of_nat n) baseDelay)
                fn n errors Hfail) with (fuel := fuel) (attempt := 0%nat)
      as (Hr & Ha & Hw).
    { intros j Hj. apply Z.ltb_lt. simpl. lia. }
    { apply Z.ltb_ge. simpl. lia. }
    { lia. }
    unfold run, ApiClient.request. rewrite Hr, Ha, Hw.
    replace (Datatypes.S n - 0)%nat with (n + 1)%nat by lia.
    replace (n - 0)%nat with n by lia. done.
Qed.
End RequestTheorems.

Lemma request_settles_within_maxRetries_witness :
  let fn : nat -> Settled nat :=
    fun k => if (k <? 1)%nat then Rejected (Error "503") else Fulfilled k in
  (Z.to_nat (FixedRetryStrategy.maxRetries FixedRetryStrategy.default) < 3)%nat /\
  is_Some (ApiClient.request (ApiClient.new FixedRetryStrategy.default) fn 3).2 /\
  (Z.to_nat (ExponentialBackoffStrategy.maxRetries
               ExponentialBackoffStrategy.default) < 6)%nat /\
  is_Some (ApiClient.request paymentsClient fn 6).2 /\
  ApiClient.request authClient fn 1
  = ([Attempt 0], Some (Rejected (Error "503"))).
Proof.
  intros fn.
  destruct (request_settles_within_maxRetries fn 3) as (Hfixed & _ & _).
  destruct (request_settles_within_maxRetries fn 6) as (_ & Hexp & _).
  destruct (request_settles_within_maxRetries fn 1) as (_ & _ & Hfast).
  assert (Z.to_nat (FixedRetryStrategy.maxRetries FixedRetryStrategy.default) < 3)%nat
    as H3 by (simpl; lia).
  assert (Z.to_nat (ExponentialBackoffStrategy.maxRetries
                      ExponentialBackoffStrategy.default) < 6)%nat
    as H6 by (simpl; lia).
  split; [exact H3|].
  split; [exact (proj1 (proj2 (proj2 (Hfixed FixedRetryStrategy.default)) H3))|].
  split; [exact H6|].
  split; [exact (proj1 (proj2 (proj2 (Hexp ExponentialBackoffStrategy.default)) H6))|].
  apply (Hfast FailFastStrategy.new). lia.
Defined.

Lemma request_returns_first_success_witness :
  let fn : nat -> Settled nat :=
    fun k => if (k <? 3)%nat then Rejected (Error "503") else Fulfilled k in
  let run := ApiClient.request paymentsClient fn 9 in
  (forall j, (j < 3)%nat ->
     exists error,
       fn j = Rejected error /\
       shouldRetry ExponentialBackoffStrategy.default error j = true) /\
  fn 3%nat = Fulfilled 3%nat /\
  (3 < 9)%nat /\
  run.2 = Some (Fulfilled 3%nat) /\
  attempts run.1 = [0; 1; 2; 3]%nat /\
  waits run.1 = [300; 600; 1200]%float.
Proof.
  intros fn run.
  assert (forall j, (j < 3)%nat ->
            exists error,
              fn j = Rejected error /\
              shouldRetry ExponentialBackoffStrategy.default error j = true)
    as Hfail.
  { intros j Hj. exists (Error "503").
    do 3 (destruct j as [|j]; [split; reflexivity|]). lia. }
  split; [exact Hfail|]. split; [reflexivity|]. split; [lia|].
  exact (request_returns_first_success fn ExponentialBackoffStrategy.default
           3 3%nat 9 Hfail eq_refl ltac:(lia)).
Defined.

Lemma retries_exhausted_witness :
  let fn : nat -> Settled unit := fun _ => Rejected (Error "503") in
  (forall j, fn j = Rejected (Error "503")) /\
  (3 < 4)%nat /\
  waits
    (ApiClient.request (ApiClient.new (FixedRetryStrategy.new 3 1000)) fn 4).1
  = [1000; 1000; 1000]%float /\
  waits
    (ApiClient.request (ApiClient.new (ExponentialBackoffStrategy.new 3 300))
       fn 4).1
  = [300; 600; 1200]%float.
Proof.
  intros fn.
  destruct (retries_exhausted fn (fun _ => Error "503") 3 4
              (fun _ => eq_refl) ltac:(lia)) as [Hfixed Hexp].
  split; [reflexivity|]. split; [lia|].
  split; [exact (proj2 (proj2 (Hfixed 1000%float)))
         |exact (proj2 (proj2 (Hexp 300%float)))].
Defined.

Section FetchProperties.
Context {S : Type} `{RetryStrategy S} {Json : Type}.
Variable url : string.
Variable strategy : S.
Variable platform : Platform.t Json.

(** X14.  Without a cancellation [fetchWithRetry] is the retry loop of
    [ApiClient]: when the signal is not aborted at the call and never fires
    during the run, it makes the same invocations, waits the same delays
    and settles in the same way as [request] does with the same strategy
    on the operation "fetch the url, fail unless the response is ok, read
    the body as JSON". *)
Theorem fetchWithRetry_without_abort_is_request (fuel : nat) :
  neverAborts url platform ->
  fetchWithRetry url strategy platform false fuel
  = ApiClient.request (ApiClient.new strategy)
      (fun attempt => (tryFetch url platform attempt).1) fuel.
Proof.
  intros [Hfetch Htimer]. unfold fetchWithRetry, ApiClient.request.
  generalize 0%nat. induction fuel as [|fuel IH]; intros attempt; [done|].
  simpl. specialize (Hfetch attempt).
  destruct (tryFetch url platform attempt) as [completion aborted'].
  simpl in Hfetch. subst aborted'. simpl.
  destruct completion as [value|error]; [done|].
  destruct (shouldRetry strategy error attempt); simpl; [|done].
  by rewrite Htimer, IH.
Qed.

(** The loop of [fetchWithRetry] settles after at most [n + 1] fetches when
    the strategy refuses every retry from attempt [n] on. *)
Lemma executeLoop_settles (n : nat) :
  (forall error a, (n <= a)%nat -> shouldRetry strategy error a = false) ->
  forall fuel attempt aborted,
    (0 < fuel)%nat -> (n < attempt + fuel)%nat ->
    let run := executeLoop url strategy platform fuel attempt aborted in
    is_Some run.2 /\
    (length (attempts run.1) <= Datatypes.S (n - attempt))%nat.
Proof.
  intros Hstop.
  induction fuel as [|fuel IH]; intros attempt aborted Hpos Hfuel; [lia|].
  simpl. destruct aborted; [simpl; split; [eauto|lia]|].
  destruct (tryFetch url platform attempt) as [completion [|]].
  - destruct completion; simpl; (split; [eauto|lia]).
  - destruct completion as [value|error]; simpl; [split; [eauto|lia]|].
    destruct (shouldRetry strategy error attempt) eqn:Eretry; simpl;
      [|split; [eauto|lia]].
    destruct (Platform.timer platform attempt _); simpl;
      [|split; [eauto|lia]].
    assert (attempt < n)%nat as Hlt.
    { destruct (decide (n <= attempt)%nat) as [Hle|]; [|lia].
      rewrite (Hstop error attempt Hle) in Eretry. done. }
    destruct (IH (Datatypes.S attempt) false) as [Hsome Hlen]; [lia..|].
    destruct (executeLoop url strategy platform fuel _ false) as [trace result].
    simpl in *. split; [done|lia].
Qed.

(** Such a strategy never lets the loop start more than [n + 1] fetches,
    however long it runs. *)
Lemma executeLoop_bounded (n : nat) :
  (forall error a, (n <= a)%nat -> shouldRetry strategy error a = false) ->
  forall fuel attempt aborted,
    (length (attempts (executeLoop url strategy platform fuel attempt aborted).1)
     <= Datatypes.S (n - attempt))%nat.
Proof.
  intros Hstop.
  induction fuel as [|fuel IH]; intros attempt aborted; [simpl; lia|].
  simpl. destruct aborted; [simpl; lia|].
  destruct (tryFetch url platform attempt) as [completion [|]].
  - destruct completion; simpl; lia.
  - destruct completion as [value|error]; simpl; [lia|].
    destruct (shouldRetry strategy error attempt) eqn:Eretry; simpl; [|lia].
    destruct (Platform.timer platform attempt _); simpl; [|lia].
    assert (attempt < n)%nat as Hlt.
    { destruct (decide (n <= attempt)%nat) as [Hle|]; [|lia].
      rewrite (Hstop error attempt Hle) in Eretry. done. }
    specialize (IH (Datatypes.S attempt) false).
    destruct (executeLoop url strategy platform fuel _ false) as [trace result].
    simpl in *. lia.
Qed.
End FetchProperties.

(** X15.  With [FixedRetryStrategy] or [ExponentialBackoffStrategy] and an
    integer [maxRetries], [fetchWithRetry] never starts more than
    [maxRetries + 1] fetches (one when [maxRetries] is 0 or negative),
    however long it runs and whatever the network, the timers and the
    signal do.  When every promise it awaits settles (the fetch and the body
    read answer or are aborted), it settles too: as many turns of the loop
    as [maxRetries + 1] are enough. *)
Theorem fetchWithRetry_settles_within_maxRetries {Json : Type}
    (url : string) (platform : Platform.t Json) (aborted : bool) (fuel : nat) :
  (forall self : FixedRetryStrategy.t,
     let n := Z.to_nat (FixedRetryStrategy.maxRetries self) in
     let run := fetchWithRetry url self platform aborted fuel in
     (length (attempts run.1) <= n + 1)%nat /\
     ((n < fuel)%nat -> is_Some run.2)) /\
  (forall self : ExponentialBackoffStrategy.t,
     let n := Z.to_nat (ExponentialBackoffStrategy.maxRetries self) in
     let run := fetchWithRetry url self platform aborted fuel in
     (length (attempts run.1) <= n + 1)%nat /\
     ((n < fuel)%nat -> is_Some run.2)).
Proof.
  split; intros self n run.
  - assert (forall error a,
              (n <= a)%nat -> shouldRetry self error a = false) as Hstop
      by (intros error a; apply stops_at_maxRetries).
    pose proof (executeLoop_bounded url self platform n Hstop fuel 0%nat aborted).
    split; [unfold run, fetchWithRetry; lia|]. intros Hfuel.
    by destruct (executeLoop_settles url self platform n Hstop fuel 0%nat aborted)
      as [Hsome _]; [lia..|].
  - assert (forall error a,
              (n <= a)%nat -> shouldRetry self error a = false) as Hstop
      by (intros error a; apply stops_at_maxRetries).
    pose proof (executeLoop_bounded url self platform n Hstop fuel 0%nat aborted).
    split; [unfold run, fetchWithRetry; lia|]. intros Hfuel.
    by destruct (executeLoop_settles url self platform n Hstop fuel 0%nat aborted)
      as [Hsome _]; [lia..|].
Qed.

Lemma fetchWithRetry_without_abort_is_request_witness :
  let platform : Platform.t nat :=
    Platform.mk nat
      (fun _ attempt =>
         Platform.Response (2 <=? attempt)%nat (Platform.BodyJson attempt))
      (fun _ _ => Platform.TimerFired) in
  neverAborts "/payments" platform /\
  fetchWithRetry "/payments" (FixedRetryStrategy.new 3 1000) platform false 9
  = ([Attempt 0; Wait 1000; Attempt 1; Wait 1000; Attempt 2],
     Some (Fulfilled 2%nat)).
Proof.
  intros platform.
  assert (neverAborts "/payments" platform) as Hcalm.
  { split; [|done]. intros attempt. unfold tryFetch. simpl.
    destruct attempt as [|[|attempt]]; reflexivity. }
  split; [exact Hcalm|].
  rewrite (fetchWithRetry_without_abort_is_request "/payments"
             (FixedRetryStrategy.new 3 1000) platform 9 Hcalm).
  reflexivity.
Defined.

Lemma fetchWithRetry_settles_within_maxRetries_witness :
  let platform : Platform.t unit :=
    Platform.mk unit
      (fun _ _ => Platform.NetworkError (TypeError "Failed to fetch"))
      (fun _ _ => Platform.TimerFired) in
  let run := fetchWithRetry "/payments" (FixedRetryStrategy.new 3 1000)
               platform false 4 in
  (Z.to_nat (FixedRetryStrategy.maxRetries (FixedRetryStrategy.new 3 1000)) < 4)%nat /\
  is_Some run.2 /\
  (length (attempts run.1) <= 4)%nat.
Proof.
  intros platform run.
  assert (Z.to_nat (FixedRetryStrategy.maxRetries (FixedRetryStrategy.new 3 1000)) < 4)%nat
    as Hfuel by (simpl; lia).
  destruct (proj1 (fetchWithRetry_settles_within_maxRetries "/payments" platform
                     false 4) (FixedRetryStrategy.new 3 1000)) as [Hbound Hsome].
  split; [exact Hfuel|]. split; [exact (Hsome Hfuel)|exact Hbound].
Defined.

(** * Properties of the [useEffect] emulation *)

Section UseEffectProperties.
Context {V : Type} `{EqDecision V}.
Implicit Types (deps prev : list V) (prevDeps : option (list V)).

Lemma someChanged_cons dep deps p prev :
  someChanged (dep :: deps) (p :: prev)
  = negb (Object_is dep p) || someChanged deps prev.
Proof. reflexivity. Qed.

(** On arrays of the same length the comparison finds a change exactly
    when the arrays differ. *)
Lemma someChanged_differ deps : forall prev,
  length prev = length deps ->
  someChanged deps prev = negb (bool_decide (deps = prev)).
Proof.
  induction deps as [|dep deps IH]; intros [|p prev] Hlen; try done.
  rewrite someChanged_cons, IH by (simpl in Hlen; lia).
  unfold Object_is.
  destruct (decide (dep = p)) as [->|Hne].
  - rewrite (bool_decide_eq_true_2 (p = p)) by done. simpl.
    destruct (decide (deps = prev)) as [->|Hne'].
    + by rewrite !bool_decide_eq_true_2.
    + rewrite !bool_decide_eq_false_2; [done|congruence|done].
  - rewrite (bool_decide_eq_false_2 (dep = p)) by done. simpl.
    rewrite bool_decide_eq_false_2; [done|congruence].
Qed.

Lemma useEffect_Some deps prevDeps :
  useEffect (Some deps) prevDeps
  = (negb (bool_decide (prevDeps = Some deps)), Some deps).
Proof.
  unfold useEffect. f_equal.
  destruct prevDeps as [prev|]; [|done].
  destruct (length prev =? length deps)%nat eqn:Elen; simpl.
  - apply Nat.eqb_eq in Elen. rewrite (someChanged_differ deps prev Elen).
    f_equal. apply bool_decide_ext. split; congruence.
  - apply Nat.eqb_neq in Elen. symmetry. apply negb_true_iff.
    apply bool_decide_eq_false_2. intros [= ->]. done.
Qed.

(** X17.  With a dependency array, [useEffect] invokes the callback exactly
    when there is no previous array or the previous array differs from the
    new one (in length or in some element, compared with [Object.is]), and
    it records the new array in either case.  Without a dependency array
    it always invokes the callback and leaves the recorded array alone. *)
Theorem useEffect_runs_iff_deps_changed deps prevDeps :
  useEffect (Some deps) prevDeps
  = (negb (bool_decide (prevDeps = Some deps)), Some deps) /\
  useEffect None prevDeps = (true, prevDeps).
Proof. split; [apply useEffect_Some|done]. Qed.

Lemma useEffects_unchanged deps (n : nat) :
  useEffects (replicate n (Some deps)) (Some deps)
  = (replicate n false, Some deps).
Proof.
  induction n as [|n IH]; [done|].
  simpl replicate. cbn [useEffects].
  rewrite (useEffect_Some deps (Some deps)), IH.
  by rewrite bool_decide_eq_true_2.
Qed.

(** X18.  An effect whose dependencies stay the same runs once: in a row of
    [n + 1] calls with the same dependency array, started with nothing
    recorded, the first call invokes the callback and the [n] others do
    not. *)
Theorem useEffect_same_deps_runs_once deps (n : nat) :
  useEffects (replicate (Datatypes.S n) (Some deps)) None
  = (true :: replicate n false, Some deps).
Proof.
  simpl replicate. cbn [useEffects].
  rewrite (useEffect_Some deps None).
  by rewrite useEffects_unchanged.
Qed.

(** X19.  The recorded array is one global shared by all effects: when two
    effects with different dependency arrays take turns, each call finds
    the array of the other one recorded and invokes its callback again,
    although the dependencies of neither effect ever change. *)
Theorem useEffect_shared_prevDeps_reruns deps1 deps2 (n : nat) :
  deps1 <> deps2 ->
  useEffects (concat (replicate n [Some deps1; Some deps2])) (Some deps2)
  = (replicate (2 * n) true, Some deps2).
Proof.
  intros Hne. induction n as [|n IH]; [done|].
  simpl replicate. simpl concat. cbn [useEffects].
  rewrite (useEffect_Some deps1 (Some deps2)).
  rewrite (useEffect_Some deps2 (Some deps1)).
  rewrite IH.
  rewrite !bool_decide_eq_false_2 by congruence.
  simpl. by replace (n + Datatypes.S (n + 0))%nat
    with (Datatypes.S (n + (n + 0))) by lia.
Qed.
End UseEffectProperties.

Lemma useEffect_shared_prevDeps_reruns_witness :
  let deps1 : list nat := [1%nat] in
  let deps2 : list nat := [2%nat] in
  deps1 <> deps2 /\
  useEffects [Some deps1; Some deps2; Some deps1; Some deps2] (Some deps2)
  = ([true; true; true; true], Some deps2) /\
  useEffects [Some deps1; Some deps1; Some deps1] (Some deps2)
  = ([true; false; false], Some deps1).
Proof.
  intros deps1 deps2.
  assert (deps1 <> deps2) as Hne by discriminate.
  split; [exact Hne|]. split; [|reflexivity].
  exact (useEffect_shared_prevDeps_reruns deps1 deps2 2 Hne).
Defined.
